(** * floor_composer: curve model, profile factories and SVG path emission

    A shallow embedding of [floor_composer/core.py], [floor_composer/factories.py]
    and the [SVGCurveViewer] class of [floor_composer/visualization.py], with
    the curve-array helpers of [floor_composer/utils.py], the dictionaries of
    [web_export.py] and the registry of [floor_composer/materials.py].

    Python floats are read as real numbers ([R]); [np.sqrt], [np.pi] and
    [np.arctan2] are [sqrt], [PI] and the two-argument arctangent over [R].
    Exceptions are an explicit error value: every function that can raise
    returns a [result]. *)

From Stdlib Require Import Reals Lra Lia List Ascii String ZArith Bool.
From Stdlib Require Import DecimalString DecimalNat.
Import ListNotations.
Open Scope R_scope.

(** ** Exceptions *)

(** The [ValueError]s of the package, told apart by their message, and the
    [ZeroDivisionError] of Python's [/], [//] and [%]. *)
Inductive error : Type :=
| InsufficientPointsError          (* "Need at least 2 points for a polyline" *)
| DiscontinuityError (i : nat)     (* "Curve discontinuity between element i and i+1" *)
| ClosureError                     (* "Closed curve is not properly closed" *)
| ZeroDivisionError.

Inductive result (A : Type) : Type :=
| Ok (a : A)
| Raise (e : error).

Arguments Ok {A} a.
Arguments Raise {A} e.

Definition bind {A B : Type} (m : result A) (k : A -> result B) : result B :=
  match m with
  | Ok a => k a
  | Raise e => Raise e
  end.

Notation "x <- m ;; k" := (bind m (fun x => k))
  (at level 61, m at next level, right associativity).

(** ** core.py *)

Module Core.

Record Point : Type := create_point { x : R; y : R }.

Record Material : Type := mkMaterial {
  material_name : string;
  category : string;
  density : option R;
  description : option string
}.

(** The dictionary an arc segment is, without its ["type"] key. *)
Record Arc : Type := mkArc {
  arc_start : Point;
  arc_end : Point;
  center : Point;
  clockwise : bool
}.

(** A segment dictionary; its ["type"] key is the constructor. *)
Inductive Segment : Type :=
| LineSegment (start end_ : Point)
| ArcSegment (arc : Arc).

Definition create_line_segment (start end_ : Point) : Segment :=
  LineSegment start end_.

Definition create_arc_segment (start end_ center : Point) (clockwise : bool)
  : Segment :=
  ArcSegment (mkArc start end_ center clockwise).

(** [element["start"]] and [element["end"]]. *)
Definition seg_start (e : Segment) : Point :=
  match e with
  | LineSegment s _ => s
  | ArcSegment a => arc_start a
  end.

Definition seg_end (e : Segment) : Point :=
  match e with
  | LineSegment _ e' => e'
  | ArcSegment a => arc_end a
  end.

Record Curve : Type := mkCurve {
  elements : list Segment;
  curve_type : string;
  name : option string;
  material : option Material
}.

Record CurveArray : Type := create_curve_array {
  curves : list Curve;
  array_name : option string
}.

Definition point_distance (p1 p2 : Point) : R :=
  let dx := x p2 - x p1 in
  let dy := y p2 - y p1 in
  sqrt (dx ^ 2 + dy ^ 2).

(** NumPy's [np.arctan2 y x], by its documented values: the angle of the
    vector [(x, y)], in (-PI, PI], and 0 at the origin. The reals have one
    zero: where NumPy tells [y = -0.0] from [y = 0.0] and returns -pi for
    the former when [x < 0], this function returns PI for both. Its values
    and NumPy's lie in [-PI, PI]. *)
Definition arctan2 (y x : R) : R :=
  if Rlt_dec 0 x then atan (y / x)
  else if Rlt_dec x 0 then
    (if Rle_dec 0 y then atan (y / x) + PI else atan (y / x) - PI)
  else if Rlt_dec 0 y then PI / 2
  else if Rlt_dec y 0 then - (PI / 2)
  else 0.

Definition line_length (line : Segment) : R :=
  point_distance (seg_start line) (seg_end line).

Definition arc_radius (arc : Arc) : R :=
  point_distance (arc_start arc) (center arc).

Definition arc_angle (arc : Arc) : R :=
  let center := center arc in
  let start_angle := arctan2 (y (arc_start arc) - y center) (x (arc_start arc) - x center) in
  let end_angle := arctan2 (y (arc_end arc) - y center) (x (arc_end arc) - x center) in
  let angle := end_angle - start_angle in
  let angle :=
    if clockwise arc && (if Rgt_dec angle 0 then true else false)
    then angle - 2 * PI
    else if negb (clockwise arc) && (if Rlt_dec angle 0 then true else false)
    then angle + 2 * PI
    else angle in
  Rabs angle.

Definition arc_length (arc : Arc) : R :=
  arc_radius arc * arc_angle arc.

Definition element_length (element : Segment) : R :=
  match element with
  | LineSegment _ _ => line_length element
  | ArcSegment arc => arc_length arc
  end.

Definition curve_length (curve : Curve) : R :=
  fold_left (fun acc elem => acc + element_length elem) (elements curve) 0.

Definition curve_array_length (curve_array : CurveArray) : R :=
  fold_left (fun acc curve => acc + curve_length curve) (curves curve_array) 0.

(** The loop [for i in range(len(elements) - 1)] of [validate_curve], from
    index [i] on: it raises at the first adjacent pair further apart than
    the tolerance. *)
Fixpoint check_continuity (tolerance : R) (i : nat) (elems : list Segment)
  : result unit :=
  match elems with
  | current :: ((next :: _) as rest) =>
      if Rgt_dec (point_distance (seg_end current) (seg_start next)) tolerance
      then Raise (DiscontinuityError i)
      else check_continuity tolerance (S i) rest
  | _ => Ok tt
  end.

Definition default_tolerance : R := 1e-6.

Definition validate_curve (curve : Curve) (tolerance : R) : result bool :=
  let elems := elements curve in
  _ <- (if (1 <? List.length elems)%nat then check_continuity tolerance 0 elems
        else Ok tt) ;;
  match elems with
  | first :: _ =>
      if (curve_type curve =? "closed")%string then
        let first_start := seg_start first in
        let last_end := seg_end (last elems first) in
        if Rgt_dec (point_distance first_start last_end) tolerance
        then Raise ClosureError
        else Ok true
      else Ok true
  | [] => Ok true
  end.

(** [material] is the material after the lookup by name that [create_curve]
    does for a string argument; the factories below pass none. *)
Definition create_curve (elems : list Segment) (ctype : string)
  (nm : option string) (mat : option Material) : result Curve :=
  let curve := mkCurve elems ctype nm mat in
  _ <- validate_curve curve default_tolerance ;;
  Ok curve.

End Core.

Import Core.

(** ** factories.py *)

Module Factories.

(** [create_line_segment(points[i], points[i + 1])] for [i] in
    [range(len(points) - 1)]. *)
Fixpoint polyline_elements (points : list Point) : list Segment :=
  match points with
  | p :: ((q :: _) as rest) => create_line_segment p q :: polyline_elements rest
  | _ => []
  end.

Definition create_polyline (points : list Point) (closed : bool)
  (nm : option string) : result Curve :=
  if (List.length points <? 2)%nat then Raise InsufficientPointsError
  else
    match points with
    | [] => Raise InsufficientPointsError
    | first :: _ =>
        let elems := polyline_elements points in
        if closed then
          create_curve (elems ++ [create_line_segment (last points first) first])
                       "closed" nm None
        else create_curve elems "open" nm None
    end.

Definition create_line (start end_ : Point) (nm : option string) : result Curve :=
  create_curve [create_line_segment start end_] "open" nm None.

(** Python's [a // b] (as an integer) and [a % b] on floats, for [b <> 0]. *)
Definition floordiv (a b : R) : Z := Int_part (a / b).
Definition pymod (a b : R) : R := a - IZR (Int_part (a / b)) * b.

(** One pass of the loop [for wave in range(num_waves)] of
    [create_wave_profile] on the pair [(current_x, points)]. *)
Definition wave_body (bottom_width top_width height side_slope_width top_offset : R)
  (wave : nat) (st : R * list Point) : R * list Point :=
  let '(current_x, points) := st in
  let points := if (wave =? 0)%nat then points ++ [create_point current_x height]
                else points in
  let current_x := current_x + top_width in
  let points := points ++ [create_point current_x height] in
  let current_x := current_x + (side_slope_width - top_offset) in
  let points := points ++ [create_point current_x 0] in
  let current_x := current_x + bottom_width in
  let points := points ++ [create_point current_x 0] in
  let current_x := current_x + (side_slope_width - top_offset) in
  let points := points ++ [create_point current_x height] in
  (current_x, points).

Fixpoint wave_loop (bottom_width top_width height side_slope_width top_offset : R)
  (n wave : nat) (st : R * list Point) : R * list Point :=
  match n with
  | O => st
  | S n' =>
      wave_loop bottom_width top_width height side_slope_width top_offset n' (S wave)
        (wave_body bottom_width top_width height side_slope_width top_offset wave st)
  end.

(** The block [if remainder > 0 and num_waves > 0] of [create_wave_profile]. *)
Definition wave_remainder (top_width height side_slope_width top_offset remainder : R)
  (num_waves : Z) (st : R * list Point) : result (list Point) :=
  let '(current_x, points) := st in
  if (if Rgt_dec remainder 0 then true else false) && (0 <? num_waves)%Z then
    let remaining := remainder in
    let '(current_x, points, remaining) :=
      if Rge_dec remaining top_width
      then (current_x + top_width,
            points ++ [create_point (current_x + top_width) height],
            remaining - top_width)
      else (current_x, points, remaining) in
    if Rgt_dec remaining 0 then
      if Req_dec_T (side_slope_width - top_offset) 0 then Raise ZeroDivisionError
      else
        let slope_progress := Rmin (remaining / (side_slope_width - top_offset)) 1 in
        let slope_x := current_x + remaining in
        let slope_y := height * (1 - slope_progress) in
        Ok (points ++ [create_point slope_x slope_y])
    else Ok points
  else Ok points.

Definition wave_points (total_width wave_width bottom_width top_width height : R)
  : result (list Point) :=
  let side_slope_width := (wave_width - bottom_width) / 2 in
  let top_offset := (bottom_width - top_width) / 2 in
  if Req_dec_T wave_width 0 then Raise ZeroDivisionError
  else
    let num_waves := floordiv total_width wave_width in
    let remainder := pymod total_width wave_width in
    let start_x := - top_width / 2 in
    let st := wave_loop bottom_width top_width height side_slope_width top_offset
                (Z.to_nat num_waves) 0 (start_x, []) in
    wave_remainder top_width height side_slope_width top_offset remainder num_waves st.

Definition create_wave_profile (total_width wave_width bottom_width top_width height : R)
  (nm : option string) : result Curve :=
  let nm := match nm with None => "Wave Profile"%string | Some n => n end in
  points <- wave_points total_width wave_width bottom_width top_width height ;;
  create_polyline points false (Some nm).

(** The loop of [create_closed_wave_profile] that reads the points back from
    the elements of the open profile. *)
Definition corrugated_points_of (elems : list Segment) : list Point :=
  fold_left
    (fun corrugated_points element =>
       let corrugated_points :=
         match corrugated_points with
         | [] => corrugated_points ++ [seg_start element]
         | _ :: _ => corrugated_points
         end in
       corrugated_points ++ [seg_end element])
    elems [].

(** The point list [create_closed_wave_profile] builds from a non-empty
    list of corrugation points. *)
Definition closed_profile_points (first_point last_point : Point)
  (corrugated_points : list Point) (height : R) (depth : option R) : list Point :=
  let capped := match depth with
                | Some d => if Rgt_dec d height then true else false
                | None => false
                end in
  if capped then
    let d := match depth with Some d => d | None => 0 end in
    [create_point (x first_point) d;
     create_point (x last_point) d;
     create_point (x last_point) (y last_point)]
    ++ rev corrugated_points
    ++ [create_point (x first_point) (y first_point)]
  else
    let points := corrugated_points in
    let points := if Req_dec_T (y last_point) 0 then points
                  else points ++ [create_point (x last_point) 0] in
    let points := if Req_dec_T (y first_point) 0 then points
                  else points ++ [create_point (x first_point) 0] in
    points.

(** [create_closed_wave_profile] from the corrugation points on. *)
Definition close_corrugation (corrugated_points : list Point) (height : R)
  (depth : option R) (nm : string) : result Curve :=
  match corrugated_points with
  | [] => create_polyline [] true (Some nm)
  | first_point :: _ =>
      let last_point := last corrugated_points first_point in
      create_polyline
        (closed_profile_points first_point last_point corrugated_points height depth)
        true (Some nm)
  end.

Definition create_closed_wave_profile
  (total_width wave_width bottom_width top_width height : R)
  (depth : option R) (nm : option string) : result Curve :=
  let nm := match nm with None => "Closed Wave Profile"%string | Some n => n end in
  open_profile <- create_wave_profile total_width wave_width bottom_width
                    top_width height (Some (nm ++ "_open")%string) ;;
  close_corrugation (corrugated_points_of (elements open_profile)) height depth nm.

End Factories.

Import Factories.

(** ** visualization.py: SVGCurveViewer *)

Module Visualization.

Record SVGCurveViewer : Type := mkViewer {
  width : Z;
  height : Z;
  margin : Z
}.

Definition view_width (self : SVGCurveViewer) : Z := (width self - 2 * margin self)%Z.
Definition view_height (self : SVGCurveViewer) : Z := (height self - 2 * margin self)%Z.

(** [SVGCurveViewer()] with its default arguments. *)
Definition default_viewer : SVGCurveViewer := mkViewer 800 600 50.

Record Bounds : Type := mkBounds {
  min_x : R;
  max_x : R;
  min_y : R;
  max_y : R
}.

(** The closure [transform] with its [scale] attribute. *)
Record Transform : Type := mkTransform {
  apply : R -> R -> R * R;
  scale : R
}.

(** The entries of [path_commands], before they are formatted. *)
Inductive PathCommand : Type :=
| MoveTo (px py : R)                                          (* "M x y" *)
| LineTo (px py : R)                                          (* "L x y" *)
| ArcTo (rx ry : R) (large_arc_flag sweep_flag : Z) (px py : R) (* "A rx ry 0 l s x y" *)
| ClosePath.                                                  (* "Z" *)

(** What one pass of the loop over [enumerate(curve["elements"])] appends. *)
Definition element_commands (transform : Transform) (i : nat) (element : Segment)
  : list PathCommand :=
  match element with
  | LineSegment s e =>
      let '(start_x, start_y) := apply transform (x s) (y s) in
      let '(end_x, end_y) := apply transform (x e) (y e) in
      (if (i =? 0)%nat then [MoveTo start_x start_y] else [])
      ++ [LineTo end_x end_y]
  | ArcSegment arc =>
      let '(start_x, start_y) :=
        apply transform (x (arc_start arc)) (y (arc_start arc)) in
      let '(end_x, end_y) := apply transform (x (arc_end arc)) (y (arc_end arc)) in
      let radius := arc_radius arc * scale transform in
      let large_arc_flag := if Rgt_dec (arc_angle arc) PI then 1%Z else 0%Z in
      let sweep_flag := if clockwise arc then 0%Z else 1%Z in
      (if (i =? 0)%nat then [MoveTo start_x start_y] else [])
      ++ [ArcTo radius radius large_arc_flag sweep_flag end_x end_y]
  end.

Fixpoint commands_from (transform : Transform) (i : nat) (elems : list Segment)
  : list PathCommand :=
  match elems with
  | [] => []
  | element :: rest =>
      element_commands transform i element ++ commands_from transform (S i) rest
  end.

Definition path_commands (curve : Curve) (transform : Transform) : list PathCommand :=
  commands_from transform 0 (elements curve)
  ++ (if (curve_type curve =? "closed")%string then [ClosePath] else []).

Section Formatting.

(** The format specifications [:.2f] of a float and the plain one of a
    flag in the f-strings. *)
Variable fmt2 : R -> string.
Variable fmt_flag : Z -> string.

Definition format_command (c : PathCommand) : string :=
  match c with
  | MoveTo px py => "M " ++ fmt2 px ++ " " ++ fmt2 py
  | LineTo px py => "L " ++ fmt2 px ++ " " ++ fmt2 py
  | ArcTo rx ry l s px py =>
      "A " ++ fmt2 rx ++ " " ++ fmt2 ry ++ " 0 " ++ fmt_flag l ++ " "
      ++ fmt_flag s ++ " " ++ fmt2 px ++ " " ++ fmt2 py
  | ClosePath => "Z"
  end%string.

Definition _curve_to_svg_path (curve : Curve) (transform : Transform) : string :=
  String.concat " " (map format_command (path_commands curve transform)).

End Formatting.

(** The points one element adds to [all_points]. *)
Definition element_points (element : Segment) : list Point :=
  [seg_start element; seg_end element]
  ++ match element with
     | ArcSegment arc =>
         let center := center arc in
         let radius := arc_radius arc in
         [create_point (x center - radius) (y center);
          create_point (x center + radius) (y center);
          create_point (x center) (y center - radius);
          create_point (x center) (y center + radius)]
     | LineSegment _ _ => []
     end.

Definition all_points (curves : list Curve) : list Point :=
  flat_map (fun curve => flat_map element_points (elements curve)) curves.

(** [min] and [max] of a list with head [h] and tail [t]. *)
Definition list_min (h : R) (t : list R) : R := fold_left Rmin t h.
Definition list_max (h : R) (t : list R) : R := fold_left Rmax t h.

Definition _calculate_bounds (curves : list Curve) : Bounds :=
  match all_points curves with
  | [] => mkBounds 0 1 0 1
  | p :: ps =>
      let xs := map x ps in
      let ys := map y ps in
      mkBounds (list_min (x p) xs) (list_max (x p) xs)
               (list_min (y p) ys) (list_max (y p) ys)
  end.

Definition _create_transform (self : SVGCurveViewer) (bounds : Bounds) : Transform :=
  let data_width := max_x bounds - min_x bounds in
  let data_height := max_y bounds - min_y bounds in
  let data_width := if Req_dec_T data_width 0 then 1 else data_width in
  let data_height := if Req_dec_T data_height 0 then 1 else data_height in
  let padding := 0.1 in
  let data_width := data_width * (1 + padding) in
  let data_height := data_height * (1 + padding) in
  let scale_x := IZR (view_width self) / data_width in
  let scale_y := IZR (view_height self) / data_height in
  let scale := Rmin scale_x scale_y in
  let center_x := (min_x bounds + max_x bounds) / 2 in
  let center_y := (min_y bounds + max_y bounds) / 2 in
  let offset_x := IZR (width self) / 2 - center_x * scale in
  let offset_y := IZR (height self) / 2 + center_y * scale in
  mkTransform (fun x y => (x * scale + offset_x, - y * scale + offset_y)) scale.

End Visualization.

Import Visualization.

(** ** factories.py: the closed shapes and the curve arrays *)

Module Shapes.

Definition create_rectangle (width height : R) (origin : option Point)
  (nm : option string) : result Curve :=
  let origin := match origin with None => create_point 0 0 | Some o => o end in
  let p1 := origin in
  let p2 := create_point (x origin + width) (y origin) in
  let p3 := create_point (x origin + width) (y origin + height) in
  let p4 := create_point (x origin) (y origin + height) in
  let elems := [create_line_segment p1 p2;
                create_line_segment p2 p3;
                create_line_segment p3 p4;
                create_line_segment p4 p1] in
  create_curve elems "closed" nm None.

Definition create_trapezoid (bottom_width top_width height : R)
  (origin : option Point) (nm : option string) : result Curve :=
  let origin := match origin with None => create_point 0 0 | Some o => o end in
  let offset := (bottom_width - top_width) / 2 in
  let p1 := origin in
  let p2 := create_point (x origin + bottom_width) (y origin) in
  let p3 := create_point (x origin + bottom_width - offset) (y origin + height) in
  let p4 := create_point (x origin + offset) (y origin + height) in
  let elems := [create_line_segment p1 p2;
                create_line_segment p2 p3;
                create_line_segment p3 p4;
                create_line_segment p4 p1] in
  create_curve elems "closed" nm None.

(** The loop of [create_floor_profile_array] on the pair
    [(curves, current_y)]; [layers] are the (material_name, thickness)
    tuples still to place. *)
Fixpoint floor_layers (layers : list (string * R)) (width : R)
  (curves : list Curve) (current_y : R) : result (list Curve) :=
  match layers with
  | [] => Ok curves
  | (material, thickness) :: rest =>
      rect <- create_rectangle width thickness (Some (create_point 0 current_y))
                (Some material) ;;
      floor_layers rest width (curves ++ [rect]) (current_y + thickness)
  end.

(** [width] is 1.0 when the caller leaves it out. *)
Definition create_floor_profile_array (layers : list (string * R)) (width : R)
  : result CurveArray :=
  curves <- floor_layers layers width [] 0 ;;
  Ok (create_curve_array curves (Some "Floor Profile"%string)).

End Shapes.

Import Shapes.

(** ** utils.py *)

Module Utils.

Definition get_closed_curves (curve_array : CurveArray) : list Curve :=
  filter (fun curve => (curve_type curve =? "closed")%string) (curves curve_array).

Definition get_open_curves (curve_array : CurveArray) : list Curve :=
  filter (fun curve => (curve_type curve =? "open")%string) (curves curve_array).

(** [curve_array["curves"].append(curve)]: the array after the call. *)
Definition add_curve_to_array (curve_array : CurveArray) (curve : Curve)
  : CurveArray :=
  create_curve_array (curves curve_array ++ [curve]) (array_name curve_array).

Record CurveDict : Type := mkCurveDict {
  dict_name : option string;
  dict_curve_type : string;
  dict_elements : list Segment;
  dict_total_length : R
}.

Record CurveArrayDict : Type := mkCurveArrayDict {
  dict_array_name : option string;
  curve_count : nat;
  dict_array_total_length : R;
  dict_curves : list CurveDict
}.

Definition curve_to_dict (curve : Curve) : CurveDict :=
  mkCurveDict (name curve) (curve_type curve) (elements curve) (curve_length curve).

Definition curve_array_to_dict (curve_array : CurveArray) : CurveArrayDict :=
  mkCurveArrayDict (array_name curve_array)
                   (List.length (curves curve_array))
                   (curve_array_length curve_array)
                   (map curve_to_dict (curves curve_array)).

(** [SVGCurveViewer(canvas_width, canvas_height)]: the margin is 50. *)
Definition viewer_of_canvas (canvas_width canvas_height : Z) : SVGCurveViewer :=
  mkViewer canvas_width canvas_height 50.

Section PathData.

(** The format specifications of the f-strings of [_curve_to_svg_path]. *)
Variable fmt2 : R -> string.
Variable fmt_flag : Z -> string.

Definition extract_svg_path_data (curve : Curve) (bounds : option Bounds)
  (canvas_width canvas_height : Z) : string :=
  let svg_viewer := viewer_of_canvas canvas_width canvas_height in
  let bounds := match bounds with
                | None => _calculate_bounds [curve]
                | Some b => b
                end in
  let transform := _create_transform svg_viewer bounds in
  _curve_to_svg_path fmt2 fmt_flag curve transform.

End PathData.

Definition get_curve_bounds (curves : list Curve) : Bounds :=
  _calculate_bounds curves.

End Utils.

Import Utils.

(** ** web_export.py *)

Module WebExport.

(** The one exception of the export: [None.replace], for a curve whose
    ["name"] is [None]. *)
Inductive exported (A : Type) : Type :=
| Exported (a : A)
| AttributeError.

Arguments Exported {A} a.
Arguments AttributeError {A}.

Record Geometry : Type := mkGeometry {
  geometry_elements : list Segment;
  svg_path : string;
  geometry_length : R
}.

Record WebCurve : Type := mkWebCurve {
  id : string;
  web_name : string;
  web_curve_type : string;
  web_material : option Material;
  geometry : Geometry
}.

Record WebCurveArray : Type := mkWebCurveArray {
  web_array_name : option string;
  web_curves : list WebCurve;
  web_bounds : Bounds;
  web_total_length : R;
  canvas : option (Z * Z)
}.

(** [s.replace(" ", "_")]. *)
Fixpoint replace_spaces (s : string) : string :=
  match s with
  | EmptyString => EmptyString
  | String c rest =>
      String (if Ascii.eqb c " "%char then "_"%char else c) (replace_spaces rest)
  end.

Section WebDict.

(** [str.lower] and the format specifications of the f-strings of
    [_curve_to_svg_path]. *)
Variable lower : string -> string.
Variable fmt2 : R -> string.
Variable fmt_flag : Z -> string.

Definition curve_to_web_dict (curve : Curve) (bounds : option Bounds)
  (canvas_width canvas_height : Z) : exported WebCurve :=
  let svg_viewer := viewer_of_canvas canvas_width canvas_height in
  let bounds := match bounds with
                | None => _calculate_bounds [curve]
                | Some b => b
                end in
  let transform := _create_transform svg_viewer bounds in
  let svg_path := _curve_to_svg_path fmt2 fmt_flag curve transform in
  match name curve with
  | None => AttributeError
  | Some nm =>
      Exported (mkWebCurve (lower (replace_spaces nm)) nm (curve_type curve)
                  (material curve)
                  (mkGeometry (elements curve) svg_path (curve_length curve)))
  end.

(** The loop of [curve_array_to_web_dict] over the curves. *)
Fixpoint web_curves_of (curves : list Curve) (bounds : Bounds)
  (canvas_width canvas_height : Z) (web_curves : list WebCurve)
  : exported (list WebCurve) :=
  match curves with
  | [] => Exported web_curves
  | curve :: rest =>
      match curve_to_web_dict curve (Some bounds) canvas_width canvas_height with
      | Exported web_curve =>
          web_curves_of rest bounds canvas_width canvas_height
            (web_curves ++ [web_curve])
      | AttributeError => AttributeError
      end
  end.

Definition curve_array_to_web_dict (curve_array : CurveArray)
  (canvas_width canvas_height : Z) : exported WebCurveArray :=
  let curves := curves curve_array in
  match curves with
  | [] => Exported (mkWebCurveArray (array_name curve_array) []
                      (mkBounds 0 1 0 1) 0 None)
  | _ :: _ =>
      let svg_viewer := viewer_of_canvas canvas_width canvas_height in
      let bounds := _calculate_bounds curves in
      match web_curves_of curves bounds canvas_width canvas_height [] with
      | Exported web_curves =>
          Exported (mkWebCurveArray (array_name curve_array) web_curves bounds
                      (curve_array_length curve_array)
                      (Some (canvas_width, canvas_height)))
      | AttributeError => AttributeError
      end
  end.

End WebDict.

End WebExport.

Import WebExport.

(** ** factories.py: the array of trapezoids *)

Module TrapezoidArray.

(** The decimal digits of [n], as [f"{n}"] writes an integer. *)
Definition decimal (n : nat) : string :=
  NilEmpty.string_of_uint (Nat.to_uint n).

(** The loop of [create_trapezoidal_profile_array] over
    [enumerate(profiles)], from the index [i] on, on the pair
    [(curves, current_x)]. *)
Fixpoint trapezoid_profiles (profiles : list (R * R * R)) (spacing : R) (i : nat)
  (curves : list Curve) (current_x : R) : result (list Curve) :=
  match profiles with
  | [] => Ok curves
  | (bottom_width, top_width, height) :: rest =>
      trap <- create_trapezoid bottom_width top_width height
                (Some (create_point current_x 0))
                (Some ("Trapezoid_" ++ decimal (i + 1))%string) ;;
      trapezoid_profiles rest spacing (S i) (curves ++ [trap])
        (current_x + (bottom_width + spacing))
  end.

(** [spacing] is 0.1 when the caller leaves it out. *)
Definition create_trapezoidal_profile_array (profiles : list (R * R * R))
  (spacing : R) : result CurveArray :=
  curves <- trapezoid_profiles profiles spacing 0 [] 0 ;;
  Ok (create_curve_array curves (Some "Trapezoidal Profile Array"%string)).

End TrapezoidArray.

Import TrapezoidArray.

(** ** materials.py *)

Module Materials.

Definition CONCRETE : Material :=
  mkMaterial "concrete" "structural" (Some 2400) (Some "Reinforced concrete"%string).
Definition STEEL : Material :=
  mkMaterial "steel" "structural" (Some 7850) (Some "Structural steel"%string).
Definition INSULATION : Material :=
  mkMaterial "insulation" "thermal" (Some 30) (Some "Thermal insulation"%string).
Definition SCREED : Material :=
  mkMaterial "screed" "finish" (Some 2000) (Some "Floor screed"%string).
Definition FINISH_FLOOR : Material :=
  mkMaterial "finish_floor" "finish" (Some 800)
             (Some "Floor finish material"%string).
Definition TIMBER : Material :=
  mkMaterial "timber" "structural" (Some 600) (Some "Structural timber"%string).
Definition MASONRY : Material :=
  mkMaterial "masonry" "structural" (Some 1800)
             (Some "Brick or block masonry"%string).
Definition MEMBRANE : Material :=
  mkMaterial "membrane" "waterproofing" (Some 50)
             (Some "Waterproof membrane"%string).
Definition METAL_SHEET : Material :=
  mkMaterial "metal_sheet" "cladding" (Some 7850)
             (Some "Corrugated metal sheeting"%string).

(** The registry, a dictionary with distinct keys, in its order. *)
Definition MATERIALS : list (string * Material) :=
  [("concrete", CONCRETE); ("steel", STEEL); ("insulation", INSULATION);
   ("screed", SCREED); ("finish_floor", FINISH_FLOOR); ("timber", TIMBER);
   ("masonry", MASONRY); ("membrane", MEMBRANE);
   ("metal_sheet", METAL_SHEET)]%string.

(** [d.get(key)] on a dictionary given by its items. *)
Fixpoint dict_get {V : Type} (d : list (string * V)) (key : string) : option V :=
  match d with
  | [] => None
  | (k, v) :: rest => if (k =? key)%string then Some v else dict_get rest key
  end.

Section Lookup.

(** [str.lower]. *)
Variable lower : string -> string.

Definition get_material (nm : string) : Material :=
  match dict_get MATERIALS (lower nm) with
  | Some material => material
  | None => CONCRETE
  end.

End Lookup.

Definition get_materials_by_category (cat : string) : list (string * Material) :=
  filter (fun item => (category (snd item) =? cat)%string) MATERIALS.

End Materials.

Import Materials.

(** ** Vocabulary of the properties *)

(** Adjacent elements meet exactly: the end of each one is the start of
    the next. *)
Inductive Chained : list Segment -> Prop :=
| Chained_nil : Chained []
| Chained_one e : Chained [e]
| Chained_cons e1 e2 rest :
    seg_end e1 = seg_start e2 -> Chained (e2 :: rest) -> Chained (e1 :: e2 :: rest).

#[local] Hint Constructors Chained : core.

(** What the factory returns on two points or more. *)
Definition polyline_curve (first : Point) (points : list Point) (closed : bool)
  (nm : option string) : Curve :=
  if closed then
    mkCurve (polyline_elements points
             ++ [create_line_segment (last points first) first]) "closed" nm None
  else mkCurve (polyline_elements points) "open" nm None.

(** The line from (0,0) to (1,0). *)
Definition unit_line : Segment :=
  create_line_segment (create_point 0 0) (create_point 1 0).

(** The arcs among the elements of a curve, in order. *)
Definition arcs_of (elems : list Segment) : list Arc :=
  flat_map (fun e => match e with ArcSegment a => [a] | LineSegment _ _ => [] end)
           elems.

(** The ["A ..."] entries of a path. *)
Definition is_arc_command (c : PathCommand) : bool :=
  match c with ArcTo _ _ _ _ _ _ => true | _ => false end.

(** [c] is the arc command the specification asks for the arc [a]. *)
Definition emits_arc (transform : Transform) (a : Arc) (c : PathCommand) : Prop :=
  exists l s ex ey,
    c = ArcTo (arc_radius a * scale transform) (arc_radius a * scale transform)
              l s ex ey
    /\ (arc_angle a > PI -> l = 1%Z) /\ (~ arc_angle a > PI -> l = 0%Z)
    /\ (clockwise a = true -> s = 0%Z) /\ (clockwise a = false -> s = 1%Z)
    /\ apply transform (x (arc_end a)) (y (arc_end a)) = (ex, ey).

(** [p] is one of the points the specification collects for [element]. *)
Definition collected_from (element : Segment) (p : Point) : Prop :=
  p = seg_start element \/ p = seg_end element
  \/ exists arc, element = ArcSegment arc
       /\ (p = create_point (x (center arc) - arc_radius arc) (y (center arc))
           \/ p = create_point (x (center arc) + arc_radius arc) (y (center arc))
           \/ p = create_point (x (center arc)) (y (center arc) - arc_radius arc)
           \/ p = create_point (x (center arc)) (y (center arc) + arc_radius arc)).

(** [transform(p["x"], p["y"])] as a point of the canvas. *)
Definition transform_point (transform : Transform) (p : Point) : Point :=
  let '(svg_x, svg_y) := apply transform (x p) (y p) in
  create_point svg_x svg_y.

(** The points of the capped mode, as the code appends them. *)
Definition capped_points (first_point last_point : Point)
  (corrugated_points : list Point) (depth : R) : list Point :=
  [create_point (x first_point) depth;
   create_point (x last_point) depth;
   create_point (x last_point) (y last_point)]
  ++ rev corrugated_points
  ++ [create_point (x first_point) (y first_point)].

(** One wave of width 2 with flats of width 1 and height 1. *)
Definition one_wave : list Point :=
  [create_point (-1 / 2) 1; create_point (1 / 2) 1; create_point 1 0;
   create_point 2 0; create_point (5 / 2) 1].

(** Every adjacent pair of elements is within the tolerance. *)
Definition Continuous (tolerance : R) (elems : list Segment) : Prop :=
  forall j a b,
    nth_error elems j = Some a -> nth_error elems (S j) = Some b ->
    point_distance (seg_end a) (seg_start b) <= tolerance.

(** [i] is the first index whose element ends further than the tolerance
    from the start of the next one. *)
Definition FirstGap (tolerance : R) (elems : list Segment) (i : nat) : Prop :=
  (exists a b,
      nth_error elems i = Some a /\ nth_error elems (S i) = Some b
      /\ point_distance (seg_end a) (seg_start b) > tolerance)
  /\ forall j a b,
       (j < i)%nat -> nth_error elems j = Some a -> nth_error elems (S j) = Some b ->
       point_distance (seg_end a) (seg_start b) <= tolerance.

(** The end of the last element is within the tolerance of the start of
    the first one. *)
Definition Closes (tolerance : R) (elems : list Segment) : Prop :=
  forall first,
    hd_error elems = Some first ->
    point_distance (seg_start first) (seg_end (last elems first)) <= tolerance.

(** The angle [arc_angle] computes for the point [p] around the center [c]. *)
Definition direction (c p : Point) : R :=
  arctan2 (y p - y c) (x p - x c).

(** A curve with the given elements; the other fields play no part in a
    length. *)
Definition curve_of (elems : list Segment) : Curve :=
  mkCurve elems "open" None None.

(** The sum of the thicknesses of the first [k] layers, as the loop of
    [create_floor_profile_array] accumulates it in [current_y]. *)
Definition thickness_below (layers : list (string * R)) (k : nat) : R :=
  fold_left (fun current_y layer => current_y + snd layer) (firstn k layers) 0.

(** The rectangle on the corners that [create_rectangle] computes. *)
Definition rectangle_curve (width height : R) (origin : Point)
  (nm : option string) : Curve :=
  let p1 := origin in
  let p2 := create_point (x origin + width) (y origin) in
  let p3 := create_point (x origin + width) (y origin + height) in
  let p4 := create_point (x origin) (y origin + height) in
  mkCurve [create_line_segment p1 p2; create_line_segment p2 p3;
           create_line_segment p3 p4; create_line_segment p4 p1]
          "closed" nm None.

(** The rectangles of the layers, stacked from the height [current_y]. *)
Fixpoint stacked (layers : list (string * R)) (width current_y : R) : list Curve :=
  match layers with
  | [] => []
  | (material, thickness) :: rest =>
      rectangle_curve width thickness (create_point 0 current_y) (Some material)
      :: stacked rest width (current_y + thickness)
  end.

(** The width one pass of the loop of [create_wave_profile] advances
    [current_x] by. *)
Definition wave_period (bottom_width top_width side_slope_width top_offset : R) : R :=
  top_width + (side_slope_width - top_offset) + bottom_width
  + (side_slope_width - top_offset).

(** The canvas point a drawing command ends at. *)
Definition command_endpoints (c : PathCommand) : list (R * R) :=
  match c with
  | LineTo px py => [(px, py)]
  | ArcTo _ _ _ _ px py => [(px, py)]
  | MoveTo _ _ | ClosePath => []
  end.

Definition is_move_command (c : PathCommand) : bool :=
  match c with MoveTo _ _ => true | _ => false end.

(** [bounds] reaches at least as far as [inner] on every side. *)
Definition bounds_contain (bounds inner : Bounds) : Prop :=
  min_x bounds <= min_x inner /\ max_x inner <= max_x bounds
  /\ min_y bounds <= min_y inner /\ max_y inner <= max_y bounds.

(** [web_curve] is the export of [curve] named [nm], drawn with the
    bounds [bounds] on a canvas of the given size. *)
Definition exports_curve (lower : string -> string) (fmt2 : R -> string)
  (fmt_flag : Z -> string) (bounds : Bounds) (canvas_width canvas_height : Z)
  (curve : Curve) (web_curve : WebCurve) : Prop :=
  name curve = Some (web_name web_curve)
  /\ id web_curve = lower (replace_spaces (web_name web_curve))
  /\ web_curve_type web_curve = curve_type curve
  /\ web_material web_curve = material curve
  /\ geometry_elements (geometry web_curve) = elements curve
  /\ geometry_length (geometry web_curve) = curve_length curve
  /\ svg_path (geometry web_curve)
     = extract_svg_path_data fmt2 fmt_flag curve (Some bounds)
         canvas_width canvas_height.

(** The offset of the [k]-th trapezoid, as the loop of
    [create_trapezoidal_profile_array] accumulates it in [current_x]. *)
Definition offset_before (profiles : list (R * R * R)) (spacing : R) (k : nat) : R :=
  fold_left (fun current_x profile => current_x + (fst (fst profile) + spacing))
            (firstn k profiles) 0.

(** The trapezoid on the corners that [create_trapezoid] computes. *)
Definition trapezoid_curve (bottom_width top_width height : R) (origin : Point)
  (nm : option string) : Curve :=
  let offset := (bottom_width - top_width) / 2 in
  let p1 := origin in
  let p2 := create_point (x origin + bottom_width) (y origin) in
  let p3 := create_point (x origin + bottom_width - offset) (y origin + height) in
  let p4 := create_point (x origin + offset) (y origin + height) in
  mkCurve [create_line_segment p1 p2; create_line_segment p2 p3;
           create_line_segment p3 p4; create_line_segment p4 p1]
          "closed" nm None.

(** The trapezoids of the profiles, placed from [current_x] and numbered
    from [i + 1]. *)
Fixpoint placed (profiles : list (R * R * R)) (spacing : R) (i : nat)
  (current_x : R) : list Curve :=
  match profiles with
  | [] => []
  | (bottom_width, top_width, height) :: rest =>
      trapezoid_curve bottom_width top_width height (create_point current_x 0)
        (Some ("Trapezoid_" ++ decimal (i + 1))%string)
      :: placed rest spacing (S i) (current_x + (bottom_width + spacing))
  end.

(** Lines 92 to 98 of [arc_angle], on the two directions. *)
Definition swept (clockwise : bool) (start_angle end_angle : R) : R :=
  let angle := end_angle - start_angle in
  let angle :=
    if clockwise && (if Rgt_dec angle 0 then true else false)
    then angle - 2 * PI
    else if negb clockwise && (if Rlt_dec angle 0 then true else false)
    then angle + 2 * PI
    else angle in
  Rabs angle.

(** * Properties *)

(** ** Distances and validation *)

Lemma point_distance_refl (p : Point) : point_distance p p = 0.
Proof.
  unfold point_distance; cbv zeta.
  replace ((x p - x p) ^ 2 + (y p - y p) ^ 2) with 0 by ring.
  apply sqrt_0.
Qed.

Lemma point_distance_nonneg (p q : Point) : 0 <= point_distance p q.
Proof. unfold point_distance; apply sqrt_pos. Qed.

Lemma point_distance_sym (p q : Point) : point_distance p q = point_distance q p.
Proof. unfold point_distance; cbv zeta; f_equal; ring. Qed.

Lemma Chained_nth (elems : list Segment) :
  Chained elems ->
  forall i e1 e2,
    nth_error elems i = Some e1 -> nth_error elems (S i) = Some e2 ->
    seg_end e1 = seg_start e2.
Proof.
  induction 1 as [|e|e1 e2 rest Hmeet Hrest IH]; intros i a b Ha Hb.
  - destruct i; discriminate.
  - destruct i as [|[|i]]; discriminate.
  - destruct i as [|i].
    + cbn in Ha, Hb. congruence.
    + cbn in Ha. change (nth_error (e2 :: rest) (S i) = Some b) in Hb. eauto.
Qed.

Lemma Chained_app_one (elems : list Segment) (e d : Segment) :
  Chained elems -> elems <> [] -> seg_end (last elems d) = seg_start e ->
  Chained (elems ++ [e]).
Proof.
  induction 1 as [|e0|e1 e2 rest Hmeet Hrest IH]; intros Hne Hlast.
  - congruence.
  - cbn in *. auto.
  - cbn [app]. constructor; [assumption|].
    apply IH; [discriminate|]. exact Hlast.
Qed.

Lemma check_continuity_chained (tolerance : R) (elems : list Segment) :
  0 <= tolerance -> Chained elems ->
  forall i, check_continuity tolerance i elems = Ok tt.
Proof.
  intros Htol; induction 1 as [|e|e1 e2 rest Hmeet Hrest IH]; intros i;
    [reflexivity | reflexivity |].
  cbn [check_continuity]. rewrite Hmeet, point_distance_refl.
  destruct (Rgt_dec 0 tolerance) as [Hgt|_]; [lra | apply IH].
Qed.

Lemma validate_chained_open (elems : list Segment) (ctype : string)
  (nm : option string) (mat : option Material) (tolerance : R) :
  0 <= tolerance -> Chained elems -> (ctype =? "closed")%string = false ->
  validate_curve (mkCurve elems ctype nm mat) tolerance = Ok true.
Proof.
  intros Htol Hch Hopen. unfold validate_curve; cbn [elements curve_type].
  rewrite Hopen.
  destruct (1 <? List.length elems)%nat;
    [rewrite check_continuity_chained by assumption|]; cbn [bind];
    destruct elems; reflexivity.
Qed.

Lemma validate_chained_closed (elems : list Segment) (ctype : string)
  (nm : option string) (mat : option Material) (tolerance : R) :
  0 <= tolerance -> Chained elems ->
  (forall first, hd_error elems = Some first ->
                 seg_end (last elems first) = seg_start first) ->
  validate_curve (mkCurve elems ctype nm mat) tolerance = Ok true.
Proof.
  intros Htol Hch Hclose. unfold validate_curve; cbn [elements curve_type].
  assert (Hcont : (if (1 <? List.length elems)%nat
                   then check_continuity tolerance 0 elems else Ok tt) = Ok tt).
  { destruct (1 <? List.length elems)%nat;
      [apply check_continuity_chained; assumption | reflexivity]. }
  rewrite Hcont; cbn [bind].
  destruct elems as [|first rest]; [reflexivity|].
  destruct (ctype =? "closed")%string; [|reflexivity].
  rewrite (Hclose first eq_refl), point_distance_refl.
  destruct (Rgt_dec 0 tolerance); [lra | reflexivity].
Qed.

(** ** The polyline factory *)

Lemma polyline_elements_chained (points : list Point) :
  Chained (polyline_elements points).
Proof.
  induction points as [|p [|q rest] IH]; cbn; auto.
  destruct rest as [|r rest]; cbn in *; auto.
Qed.

Lemma polyline_elements_length (points : list Point) :
  List.length (polyline_elements points) = Nat.pred (List.length points).
Proof.
  induction points as [|p [|q rest] IH]; [reflexivity | reflexivity |].
  change (S (List.length (polyline_elements (q :: rest))) = S (List.length rest)).
  rewrite IH. reflexivity.
Qed.

Lemma last_default_irrelevant {A : Type} (l : list A) (d d' : A) :
  l <> [] -> last l d = last l d'.
Proof.
  induction l as [|a [|b l] IH]; intros Hne; [congruence | reflexivity |].
  change (last (b :: l) d = last (b :: l) d'). apply IH; discriminate.
Qed.

Lemma polyline_elements_last (p q : Point) (rest : list Point) (d : Segment) :
  seg_end (last (polyline_elements (p :: q :: rest)) d) = last (p :: q :: rest) p.
Proof.
  revert p q d; induction rest as [|r rest IH]; intros p q d; [reflexivity|].
  change (polyline_elements (p :: q :: r :: rest))
    with (create_line_segment p q :: polyline_elements (q :: r :: rest)).
  destruct (polyline_elements (q :: r :: rest)) as [|e es] eqn:E;
    [discriminate E|].
  change (last (create_line_segment p q :: e :: es) d) with (last (e :: es) d).
  rewrite <- E, IH.
  change (last (p :: q :: r :: rest) p) with (last (q :: r :: rest) p).
  apply last_default_irrelevant; discriminate.
Qed.

Lemma closed_polyline_chained (p q : Point) (rest : list Point) :
  Chained (polyline_elements (p :: q :: rest)
           ++ [create_line_segment (last (p :: q :: rest) p) p]).
Proof.
  apply Chained_app_one with (d := create_line_segment p p).
  - apply polyline_elements_chained.
  - discriminate.
  - rewrite polyline_elements_last. reflexivity.
Qed.

Lemma create_polyline_two_or_more (p q : Point) (rest : list Point)
  (closed : bool) (nm : option string) :
  create_polyline (p :: q :: rest) closed nm
  = Ok (polyline_curve p (p :: q :: rest) closed nm)
  /\ validate_curve (polyline_curve p (p :: q :: rest) closed nm) default_tolerance
     = Ok true.
Proof.
  assert (Htol : 0 <= default_tolerance) by (unfold default_tolerance; lra).
  assert (Hval : validate_curve (polyline_curve p (p :: q :: rest) closed nm)
                   default_tolerance = Ok true).
  { unfold polyline_curve; destruct closed.
    - apply validate_chained_closed; [assumption | apply closed_polyline_chained |].
      intros first Hfirst. cbn in Hfirst. injection Hfirst as <-.
      rewrite last_last. reflexivity.
    - apply validate_chained_open;
        [assumption | apply polyline_elements_chained | reflexivity]. }
  split; [|exact Hval].
  unfold create_polyline. cbn [List.length Nat.ltb Nat.leb].
  unfold polyline_curve in *; destruct closed; unfold create_curve;
    rewrite Hval; reflexivity.
Qed.

(** C9: on two points or more, with any coordinates and either value of
    [closed], [create_polyline] returns a curve and raises nothing: each
    generated segment ends exactly where the next one starts (gap 0), the
    closing segment of a closed polyline runs from the last point back to
    the first, where the first segment starts, and the validation done at
    construction succeeds. *)
Theorem create_polyline_never_discontinuous
  (points : list Point) (closed : bool) (nm : option string) :
  (2 <= List.length points)%nat ->
  exists curve,
    create_polyline points closed nm = Ok curve
    /\ validate_curve curve default_tolerance = Ok true
    /\ curve_type curve = (if closed then "closed" else "open")%string
    /\ (forall i e1 e2,
          nth_error (elements curve) i = Some e1 ->
          nth_error (elements curve) (S i) = Some e2 ->
          seg_end e1 = seg_start e2
          /\ point_distance (seg_end e1) (seg_start e2) = 0)
    /\ (closed = true ->
        forall first,
          hd_error points = Some first ->
          last (elements curve) (create_line_segment first first)
          = create_line_segment (last points first) first
          /\ option_map seg_start (hd_error (elements curve)) = Some first).
Proof.
  intros Hlen.
  destruct points as [|p [|q rest]]; [cbn in Hlen; lia | cbn in Hlen; lia |].
  destruct (create_polyline_two_or_more p q rest closed nm) as [Hret Hval].
  exists (polyline_curve p (p :: q :: rest) closed nm).
  split; [exact Hret|]. split; [exact Hval|].
  split; [unfold polyline_curve; destruct closed; reflexivity|].
  split.
  - intros i e1 e2 H1 H2.
    assert (Hch : Chained (elements (polyline_curve p (p :: q :: rest) closed nm))).
    { unfold polyline_curve; destruct closed; cbn [elements];
        [apply closed_polyline_chained | apply polyline_elements_chained]. }
    rewrite (Chained_nth _ Hch i e1 e2 H1 H2).
    split; [reflexivity | apply point_distance_refl].
  - intros -> first Hfirst. cbn in Hfirst; injection Hfirst as <-.
    unfold polyline_curve; cbn [elements].
    rewrite last_last. split; reflexivity.
Qed.

Lemma create_polyline_never_discontinuous_witness :
  exists curve,
    create_polyline [create_point 0 0; create_point 3 4; create_point 3 0] true None
    = Ok curve
    /\ validate_curve curve default_tolerance = Ok true.
Proof.
  destruct (create_polyline_never_discontinuous
              [create_point 0 0; create_point 3 4; create_point 3 0] true None)
    as [curve (Hret & Hval & _)]; [cbn; lia|].
  exists curve; split; assumption.
Defined.

(** C8: [create_polyline] raises the error of too few points exactly when it
    is given fewer than two points, whatever [closed] is, and then returns
    no curve. *)
Theorem create_polyline_insufficient_iff
  (points : list Point) (closed : bool) (nm : option string) :
  (create_polyline points closed nm = Raise InsufficientPointsError
   <-> (List.length points < 2)%nat)
  /\ ((List.length points < 2)%nat ->
      forall curve, create_polyline points closed nm <> Ok curve).
Proof.
  destruct points as [|p [|q rest]].
  - split; [split; [cbn; lia | reflexivity] | intros _ curve; discriminate].
  - split; [split; [cbn; lia | reflexivity] | intros _ curve; discriminate].
  - destruct (create_polyline_two_or_more p q rest closed nm) as [Hret _].
    rewrite Hret. split; [split|]; cbn [List.length]; intros H;
      [discriminate | lia | lia].
Qed.

(** ** Validation of short curves *)

Lemma unit_line_length : point_distance (create_point 0 0) (create_point 1 0) = 1.
Proof.
  unfold point_distance; cbn [x y].
  replace ((1 - 0) ^ 2 + (0 - 0) ^ 2) with 1 by ring. apply sqrt_1.
Qed.

(** A closed curve made of the single line from (0,0) to (1,0) has one
    element and is rejected: the closure check runs on every non-empty
    closed curve. *)
Lemma validate_single_closed_line_raises :
  (List.length (elements (mkCurve [unit_line] "closed" None None)) <= 1)%nat
  /\ validate_curve (mkCurve [unit_line] "closed" None None) default_tolerance
     = Raise ClosureError.
Proof.
  split; [cbn; lia|].
  unfold validate_curve, unit_line; cbn.
  rewrite unit_line_length.
  destruct (Rgt_dec 1 default_tolerance) as [_|Hn]; [reflexivity|].
  exfalso; apply Hn; unfold default_tolerance; lra.
Qed.

(** C6, amended: on a curve of at most one element the continuity loop does
    nothing, so [validate_curve] never reports a discontinuity; it succeeds
    exactly when the curve is not closed or each element (there is at most
    one) ends within the tolerance of its own start, and raises the closure
    error otherwise. An empty curve is always valid. *)
Theorem validate_curve_short (curve : Curve) (tolerance : R) :
  (List.length (elements curve) <= 1)%nat ->
  (validate_curve curve tolerance = Ok true
   \/ validate_curve curve tolerance = Raise ClosureError)
  /\ (validate_curve curve tolerance = Ok true
      <-> (curve_type curve <> "closed"%string
           \/ forall e, In e (elements curve) ->
                        point_distance (seg_start e) (seg_end e) <= tolerance))
  /\ (elements curve = [] -> validate_curve curve tolerance = Ok true).
Proof.
  destruct curve as [elems ctype nm mat]; cbn [elements curve_type].
  destruct elems as [|e [|e' rest]]; intros Hlen; [| |cbn in Hlen; lia].
  - split; [left; reflexivity|]. split; [|reflexivity].
    split; [|reflexivity]. intros _; right; intros e [].
  - unfold validate_curve; cbn.
    destruct (String.eqb_spec ctype "closed") as [->|Hne].
    + destruct (Rgt_dec (point_distance (seg_start e) (seg_end e)) tolerance)
        as [Hgt|Hle].
      * split; [right; reflexivity|]. split; [|discriminate].
        split; [discriminate|].
        intros [Hne|Hall]; [congruence|].
        specialize (Hall e (or_introl eq_refl)). lra.
      * split; [left; reflexivity|]. split; [|discriminate].
        split; [|reflexivity]. intros _; right; intros e0 [<-|[]]. lra.
    + split; [left; reflexivity|]. split; [|discriminate].
      split; [|reflexivity]. intros _; left; assumption.
Qed.

Lemma validate_curve_short_witness :
  validate_curve (mkCurve [unit_line] "open" None None) default_tolerance = Ok true.
Proof.
  destruct (validate_curve_short (mkCurve [unit_line] "open" None None)
              default_tolerance) as (_ & Hiff & _); [cbn; lia|].
  apply Hiff. left. cbn. discriminate.
Defined.

(** ** Arc angles *)

Lemma arctan2_range (b a : R) : - PI < arctan2 b a <= PI.
Proof.
  unfold arctan2. pose proof PI_RGT_0 as Hpi.
  pose proof (atan_bound (b / a)) as Hat.
  destruct (Rlt_dec 0 a) as [Hpos|Hnpos]; [lra|].
  destruct (Rlt_dec a 0) as [Hneg|Hnneg].
  - destruct (Rle_dec 0 b) as [Hb|Hb].
    + assert (Hq : b / a <= 0).
      { assert (Hinv : / a < 0) by (apply Rinv_lt_0_compat; assumption).
        unfold Rdiv; nra. }
      assert (atan (b / a) <= 0).
      { rewrite <- atan_0. destruct Hq as [Hq|Hq];
          [left; apply atan_increasing; assumption | rewrite Hq; lra]. }
      lra.
    + assert (Hq : 0 < b / a).
      { assert (Hinv : / a < 0) by (apply Rinv_lt_0_compat; assumption).
        unfold Rdiv; nra. }
      apply atan_increasing in Hq. rewrite atan_0 in Hq. lra.
  - destruct (Rlt_dec 0 b); [lra|]. destruct (Rlt_dec b 0); lra.
Qed.

(** C3: for every arc, whatever its start, end and center points and its
    clockwise flag, [arc_angle] lies between 0 and 2 PI; it is never
    negative. *)
Theorem arc_angle_range (arc : Arc) : 0 <= arc_angle arc <= 2 * PI.
Proof.
  unfold arc_angle; cbv zeta.
  pose proof (arctan2_range (y (arc_start arc) - y (center arc))
                            (x (arc_start arc) - x (center arc))) as Hs.
  pose proof (arctan2_range (y (arc_end arc) - y (center arc))
                            (x (arc_end arc) - x (center arc))) as He.
  set (sa := arctan2 (y (arc_start arc) - y (center arc)) _) in *.
  set (ea := arctan2 (y (arc_end arc) - y (center arc)) _) in *.
  split; [apply Rabs_pos|].
  apply Rabs_le.
  destruct (clockwise arc); cbn [andb negb];
    destruct (Rgt_dec (ea - sa) 0); destruct (Rlt_dec (ea - sa) 0); cbn [andb]; lra.
Qed.

(** The quarter circle of the test suite: from (1,0) to (0,1) around the
    origin, counter-clockwise. *)
Example arc_angle_quarter_circle :
  arc_angle (mkArc (create_point 1 0) (create_point 0 1) (create_point 0 0) false)
  = PI / 2.
Proof.
  unfold arc_angle; cbn [arc_start arc_end center clockwise x y negb andb].
  pose proof PI_RGT_0 as Hpi.
  replace (0 - 0) with 0 by ring. replace (1 - 0) with 1 by ring.
  unfold arctan2.
  destruct (Rlt_dec 0 1) as [_|H]; [|lra].
  destruct (Rlt_dec 0 0) as [H|_]; [lra|].
  replace (0 / 1) with 0 by field. rewrite atan_0.
  destruct (Rlt_dec (PI / 2 - 0) 0) as [H|_]; [lra|].
  rewrite Rabs_right; lra.
Qed.

(** ** Path emission *)

Lemma element_commands_line (transform : Transform) (i : nat) (s e : Point) :
  filter is_arc_command (element_commands transform i (LineSegment s e)) = []
  /\ ~ In ClosePath (element_commands transform i (LineSegment s e)).
Proof.
  unfold element_commands.
  destruct (apply transform (x s) (y s)) as [sx sy].
  destruct (apply transform (x e) (y e)) as [ex ey].
  destruct (i =? 0)%nat; cbn; split; try reflexivity;
    intros H; repeat destruct H as [H|H]; try discriminate H; exact H.
Qed.

Lemma element_commands_arc (transform : Transform) (i : nat) (a : Arc) :
  (exists c, filter is_arc_command (element_commands transform i (ArcSegment a)) = [c]
             /\ emits_arc transform a c)
  /\ ~ In ClosePath (element_commands transform i (ArcSegment a)).
Proof.
  unfold element_commands.
  destruct (apply transform (x (arc_start a)) (y (arc_start a))) as [sx sy].
  destruct (apply transform (x (arc_end a)) (y (arc_end a))) as [ex ey] eqn:Eend.
  split.
  - eexists; split.
    + destruct (i =? 0)%nat; cbn; reflexivity.
    + unfold emits_arc. do 4 eexists. split; [reflexivity|].
      rewrite Eend.
      destruct (Rgt_dec (arc_angle a) PI); destruct (clockwise a);
        repeat split; intros; solve [reflexivity | contradiction | discriminate].
  - destruct (i =? 0)%nat; cbn;
      intros H; repeat destruct H as [H|H]; try discriminate H; exact H.
Qed.

Lemma commands_from_arcs (transform : Transform) (elems : list Segment) :
  forall i,
    Forall2 (emits_arc transform) (arcs_of elems)
            (filter is_arc_command (commands_from transform i elems))
    /\ ~ In ClosePath (commands_from transform i elems).
Proof.
  induction elems as [|e rest IH]; intros i; [split; [constructor | intros []]|].
  destruct (IH (S i)) as [IHarcs IHclose].
  cbn [commands_from arcs_of flat_map]. rewrite filter_app.
  destruct e as [s e|a].
  - destruct (element_commands_line transform i s e) as [-> Hno].
    split; [exact IHarcs|]. rewrite in_app_iff. tauto.
  - destruct (element_commands_arc transform i a) as [[c [-> Hc]] Hno].
    split; [constructor; assumption|]. rewrite in_app_iff. tauto.
Qed.

(** C4: for every curve and transform, the arc commands of the emitted
    path are, in order, those of the arc elements of the curve: each carries
    the radius [arc_radius * scale], the large-arc flag 1 when the arc angle
    exceeds PI and 0 otherwise, and the sweep flag 0 for a clockwise arc and
    1 otherwise. A close-path command is emitted if and only if the curve
    type is closed, and then it is the last command and the only one. *)
Theorem path_commands_arcs_and_close (curve : Curve) (transform : Transform) :
  Forall2 (emits_arc transform) (arcs_of (elements curve))
          (filter is_arc_command (path_commands curve transform))
  /\ (In ClosePath (path_commands curve transform)
      <-> curve_type curve = "closed"%string)
  /\ (curve_type curve = "closed"%string ->
      exists commands,
        path_commands curve transform = commands ++ [ClosePath]
        /\ ~ In ClosePath commands).
Proof.
  unfold path_commands.
  destruct (commands_from_arcs transform (elements curve) 0%nat) as [Harcs Hno].
  destruct (String.eqb_spec (curve_type curve) "closed") as [Hc|Hc].
  - split; [|split].
    + rewrite filter_app; cbn [filter is_arc_command]. rewrite app_nil_r. exact Harcs.
    + rewrite in_app_iff; cbn. tauto.
    + intros _. eexists; split; [reflexivity | exact Hno].
  - split; [|split].
    + rewrite app_nil_r. exact Harcs.
    + rewrite app_nil_r. tauto.
    + intros H; contradiction.
Qed.

(** ** Bounds *)

Lemma list_min_spec (t : list R) :
  forall h, (forall v, In v (h :: t) -> list_min h t <= v) /\ In (list_min h t) (h :: t).
Proof.
  unfold list_min; induction t as [|a t IH]; intros h.
  - cbn. split; [intros v [<-|[]]; lra | left; reflexivity].
  - cbn [fold_left]. destruct (IH (Rmin h a)) as [Hle Hin]. split.
    + intros v [<-|[<-|Hv]].
      * pose proof (Hle _ (or_introl eq_refl)). pose proof (Rmin_l h a). lra.
      * pose proof (Hle _ (or_introl eq_refl)). pose proof (Rmin_r h a). lra.
      * apply Hle; right; assumption.
    + destruct Hin as [Hin|Hin]; [|right; right; assumption].
      rewrite <- Hin. unfold Rmin; destruct (Rle_dec h a); cbn; auto.
Qed.

Lemma list_max_spec (t : list R) :
  forall h, (forall v, In v (h :: t) -> v <= list_max h t) /\ In (list_max h t) (h :: t).
Proof.
  unfold list_max; induction t as [|a t IH]; intros h.
  - cbn. split; [intros v [<-|[]]; lra | left; reflexivity].
  - cbn [fold_left]. destruct (IH (Rmax h a)) as [Hle Hin]. split.
    + intros v [<-|[<-|Hv]].
      * pose proof (Hle _ (or_introl eq_refl)). pose proof (Rmax_l h a). lra.
      * pose proof (Hle _ (or_introl eq_refl)). pose proof (Rmax_r h a). lra.
      * apply Hle; right; assumption.
    + destruct Hin as [Hin|Hin]; [|right; right; assumption].
      rewrite <- Hin. unfold Rmax; destruct (Rle_dec h a); cbn; auto.
Qed.

Lemma element_points_spec (element : Segment) (p : Point) :
  In p (element_points element) <-> collected_from element p.
Proof.
  unfold element_points, collected_from; destruct element as [s e|arc];
    cbn [app In seg_start seg_end]; split.
  - intros [<-|[<-|[]]]; auto.
  - intros [-> | [-> | [arc [Habs _]]]]; auto; discriminate.
  - intros [<-|[<-|[<-|[<-|[<-|[<-|[]]]]]]]; auto;
      right; right; exists arc; split; auto.
  - intros [-> | [-> | [arc' [Heq H]]]]; auto.
    injection Heq as <-. destruct H as [-> | [-> | [-> | ->]]]; auto 10.
Qed.

Lemma all_points_spec (curves : list Curve) (p : Point) :
  In p (all_points curves)
  <-> exists curve element,
        In curve curves /\ In element (elements curve) /\ collected_from element p.
Proof.
  unfold all_points. rewrite in_flat_map. split.
  - intros [curve [Hc Hp]]. apply in_flat_map in Hp. destruct Hp as [element [He Hp]].
    exists curve, element. rewrite <- element_points_spec. auto.
  - intros [curve [element (Hc & He & Hp)]]. exists curve; split; [assumption|].
    apply in_flat_map. exists element. rewrite element_points_spec. auto.
Qed.

(** C5: [_calculate_bounds] collects, for each element of each curve, its
    start and end points and, for an arc, the four points at distance
    [arc_radius] from the center along the axes; the bounds it returns are
    the least and greatest x and y over the collected points (each bound is
    below, or above, every collected coordinate and is the coordinate of a
    collected point). When no point is collected, as for the empty list, it
    returns min_x = 0, max_x = 1, min_y = 0, max_y = 1. *)
Theorem calculate_bounds_spec (curves : list Curve) :
  (forall p, In p (all_points curves)
             <-> exists curve element,
                   In curve curves /\ In element (elements curve)
                   /\ collected_from element p)
  /\ (all_points curves = [] -> _calculate_bounds curves = mkBounds 0 1 0 1)
  /\ (all_points curves <> [] ->
      (forall p, In p (all_points curves) ->
                 min_x (_calculate_bounds curves) <= x p <= max_x (_calculate_bounds curves)
                 /\ min_y (_calculate_bounds curves) <= y p
                    <= max_y (_calculate_bounds curves))
      /\ In (min_x (_calculate_bounds curves)) (map x (all_points curves))
      /\ In (max_x (_calculate_bounds curves)) (map x (all_points curves))
      /\ In (min_y (_calculate_bounds curves)) (map y (all_points curves))
      /\ In (max_y (_calculate_bounds curves)) (map y (all_points curves)))
  /\ _calculate_bounds [] = mkBounds 0 1 0 1.
Proof.
  split; [intros p; apply all_points_spec|].
  split; [unfold _calculate_bounds; intros ->; reflexivity|].
  split; [|reflexivity].
  unfold _calculate_bounds. destruct (all_points curves) as [|q ps]; [congruence|].
  intros _. cbn [min_x max_x min_y max_y].
  destruct (list_min_spec (map x ps) (x q)) as [Hminx Hinminx].
  destruct (list_max_spec (map x ps) (x q)) as [Hmaxx Hinmaxx].
  destruct (list_min_spec (map y ps) (y q)) as [Hminy Hinminy].
  destruct (list_max_spec (map y ps) (y q)) as [Hmaxy Hinmaxy].
  change (x q :: map x ps) with (map x (q :: ps)) in *.
  change (y q :: map y ps) with (map y (q :: ps)) in *.
  split; [|auto].
  intros p Hp. pose proof (in_map x _ _ Hp). pose proof (in_map y _ _ Hp). auto.
Qed.

(** ** The coordinate transform *)

Lemma create_transform_distance (self : SVGCurveViewer) (bounds : Bounds)
  (p q : Point) :
  point_distance (transform_point (_create_transform self bounds) p)
                 (transform_point (_create_transform self bounds) q)
  = Rabs (scale (_create_transform self bounds)) * point_distance p q.
Proof.
  unfold transform_point, _create_transform; cbv zeta; cbn [apply scale].
  set (s := Rmin _ _).
  unfold point_distance; cbn [x y].
  rewrite <- sqrt_Rsqr_abs, <- sqrt_mult;
    [| apply Rle_0_sqr | apply Rplus_le_le_0_compat; apply pow2_ge_0].
  f_equal. unfold Rsqr. ring.
Qed.

Lemma create_transform_scale_nonneg (self : SVGCurveViewer) (bounds : Bounds) :
  min_x bounds <= max_x bounds -> min_y bounds <= max_y bounds ->
  (0 <= view_width self)%Z -> (0 <= view_height self)%Z ->
  0 <= scale (_create_transform self bounds).
Proof.
  intros Hx Hy Hw Hh. unfold _create_transform; cbv zeta; cbn [scale].
  apply IZR_le in Hw, Hh.
  apply Rmin_glb.
  - destruct (Req_dec_T (max_x bounds - min_x bounds) 0);
      apply Rmult_le_pos; try assumption; left; apply Rinv_0_lt_compat; lra.
  - destruct (Req_dec_T (max_y bounds - min_y bounds) 0);
      apply Rmult_le_pos; try assumption; left; apply Rinv_0_lt_compat; lra.
Qed.

(** The bounds of [_calculate_bounds] are never inverted. *)
Lemma calculate_bounds_ordered (curves : list Curve) :
  min_x (_calculate_bounds curves) <= max_x (_calculate_bounds curves)
  /\ min_y (_calculate_bounds curves) <= max_y (_calculate_bounds curves).
Proof.
  unfold _calculate_bounds. destruct (all_points curves) as [|q ps]; cbn; [lra|].
  pose proof (proj1 (list_min_spec (map x ps) (x q)) _ (or_introl eq_refl)).
  pose proof (proj1 (list_max_spec (map x ps) (x q)) _ (or_introl eq_refl)).
  pose proof (proj1 (list_min_spec (map y ps) (y q)) _ (or_introl eq_refl)).
  pose proof (proj1 (list_max_spec (map y ps) (y q)) _ (or_introl eq_refl)).
  lra.
Qed.

(** With the default viewer and the inverted bounds min_x = 1, max_x = 0,
    the scale is negative: the images of (0,0) and (1,0) are at a positive
    distance, which [scale] times the distance of the two points is not. *)
Lemma create_transform_inverted_bounds_not_similarity :
  let transform := _create_transform default_viewer (mkBounds 1 0 0 1) in
  point_distance (transform_point transform (create_point 0 0))
                 (transform_point transform (create_point 1 0))
  <> scale transform * point_distance (create_point 0 0) (create_point 1 0).
Proof.
  cbv zeta. rewrite create_transform_distance, unit_line_length.
  assert (Hneg : scale (_create_transform default_viewer (mkBounds 1 0 0 1)) < 0).
  { unfold _create_transform; cbv zeta; cbn [scale min_x max_x min_y max_y].
    destruct (Req_dec_T (0 - 1) 0) as [H|_]; [lra|].
    eapply Rle_lt_trans; [apply Rmin_l|].
    unfold default_viewer, view_width; cbn [width margin].
    replace (IZR (800 - 2 * 50)) with 700 by (cbn; reflexivity).
    apply Rmult_pos_neg; [lra|]. apply Rinv_lt_0_compat; lra. }
  pose proof (Rabs_pos (scale (_create_transform default_viewer (mkBounds 1 0 0 1)))).
  lra.
Qed.

(** C10, amended: for bounds that are not inverted (min_x <= max_x and
    min_y <= max_y, as [_calculate_bounds] returns them) and a viewer whose
    view width and view height are not negative, the scale is not negative
    and the distance between the images of two points is the scale times
    the distance between the points. *)
Theorem create_transform_similarity (self : SVGCurveViewer) (bounds : Bounds)
  (p q : Point) :
  min_x bounds <= max_x bounds -> min_y bounds <= max_y bounds ->
  (0 <= view_width self)%Z -> (0 <= view_height self)%Z ->
  0 <= scale (_create_transform self bounds)
  /\ point_distance (transform_point (_create_transform self bounds) p)
                    (transform_point (_create_transform self bounds) q)
     = scale (_create_transform self bounds) * point_distance p q.
Proof.
  intros Hx Hy Hw Hh.
  pose proof (create_transform_scale_nonneg self bounds Hx Hy Hw Hh) as Hs.
  split; [exact Hs|].
  rewrite create_transform_distance, Rabs_right; [reflexivity | lra].
Qed.

Lemma create_transform_similarity_witness :
  let transform := _create_transform default_viewer (mkBounds 0 1 0 1) in
  point_distance (transform_point transform (create_point 0 0))
                 (transform_point transform (create_point 1 0))
  = scale transform * point_distance (create_point 0 0) (create_point 1 0).
Proof.
  cbv zeta.
  apply (create_transform_similarity default_viewer (mkBounds 0 1 0 1));
    cbn; solve [lra | lia].
Defined.

(** ** The wave profile *)

Lemma floordiv_ge_1 (a b : R) : 0 < b -> b <= a -> (1 <= floordiv a b)%Z.
Proof.
  intros Hb Hab. unfold floordiv.
  destruct (base_Int_part (a / b)) as [_ Hlow].
  assert (Hinv : 0 < / b) by (apply Rinv_0_lt_compat; assumption).
  assert (Hone : b * / b = 1) by (field; lra).
  assert (Hq : 1 <= a / b) by (unfold Rdiv; nra).
  assert (Hz : 0 < IZR (Int_part (a / b))) by lra.
  apply lt_IZR in Hz. lia.
Qed.


Section WaveLoop.

Variables bottom_width top_width height side_slope_width top_offset : R.

Let body := wave_body bottom_width top_width height side_slope_width top_offset.
Let loop := wave_loop bottom_width top_width height side_slope_width top_offset.

Lemma wave_body_length (wave : nat) (st : R * list Point) :
  (List.length (snd st) + 4 <= List.length (snd (body wave st)))%nat.
Proof.
  destruct st as [current_x points]. unfold body, wave_body.
  destruct (wave =? 0)%nat; cbn [snd]; repeat rewrite length_app; cbn; lia.
Qed.

Lemma wave_loop_length (n : nat) :
  forall wave st,
    (List.length (snd st) + 4 * n <= List.length (snd (loop n wave st)))%nat.
Proof.
  induction n as [|n IH]; intros wave st; [cbn; lia|].
  change (loop (S n) wave st) with (loop n (S wave) (body wave st)).
  pose proof (IH (S wave) (body wave st)). pose proof (wave_body_length wave st).
  lia.
Qed.

(** The first point of the profile is the start of the first wave. *)
Lemma wave_loop_first (n : nat) (start_x : R) :
  hd_error (snd (loop (S n) 0 (start_x, []))) = Some (create_point start_x height).
Proof.
  change (loop (S n) 0%nat (start_x, [])) with (loop n 1%nat (body 0%nat (start_x, []))).
  unfold body, wave_body; cbn [Nat.eqb app].
  set (st := (_, _)).
  assert (Hgen : forall m wave st',
             hd_error (snd st') = Some (create_point start_x height) ->
             hd_error (snd (loop m wave st')) = Some (create_point start_x height)).
  { induction m as [|m IH]; intros wave st' Hhd; [exact Hhd|].
    change (loop (S m) wave st') with (loop m (S wave) (body wave st')).
    apply IH. destruct st' as [cx [|p ps]]; [discriminate Hhd|].
    unfold body, wave_body. destruct (wave =? 0)%nat; cbn in *; exact Hhd. }
  apply Hgen. reflexivity.
Qed.


Lemma wave_remainder_ok (remainder : R) (num_waves : Z) (st : R * list Point) :
  side_slope_width - top_offset <> 0 ->
  exists points,
    wave_remainder top_width height side_slope_width top_offset remainder num_waves st
    = Ok points
    /\ (List.length (snd st) <= List.length points)%nat.
Proof.
  intros Hslope. destruct st as [current_x points]. unfold wave_remainder.
  cbn [snd].
  destruct ((if Rgt_dec remainder 0 then true else false) && (0 <? num_waves)%Z);
    [|eexists; split; [reflexivity | lia]].
  destruct (Rge_dec remainder top_width).
  - destruct (Rgt_dec (remainder - top_width) 0).
    + destruct (Req_dec_T (side_slope_width - top_offset) 0); [contradiction|].
      eexists; split; [reflexivity|]. repeat rewrite length_app; cbn; lia.
    + eexists; split; [reflexivity|]. rewrite length_app; cbn; lia.
  - destruct (Rgt_dec remainder 0).
    + destruct (Req_dec_T (side_slope_width - top_offset) 0); [contradiction|].
      eexists; split; [reflexivity|]. rewrite length_app; cbn; lia.
    + eexists; split; [reflexivity | lia].
Qed.

(** The partial wave raises nothing either when there is none, or when
    it is the top flat alone: the slope is divided by only for what remains
    after it. *)
Lemma wave_remainder_total (remainder : R) (num_waves : Z) (st : R * list Point) :
  side_slope_width - top_offset <> 0 \/ remainder = 0 \/ remainder = top_width ->
  exists points,
    wave_remainder top_width height side_slope_width top_offset remainder num_waves st
    = Ok points
    /\ (List.length (snd st) <= List.length points)%nat.
Proof.
  intros [Hslope|[->| ->]]; [apply wave_remainder_ok; exact Hslope | |];
    destruct st as [current_x points]; unfold wave_remainder; cbn [snd].
  - destruct (Rgt_dec 0 0) as [H|_]; [lra|]. cbn [andb].
    eexists; split; [reflexivity | lia].
  - destruct ((if Rgt_dec top_width 0 then true else false) && (0 <? num_waves)%Z);
      [|eexists; split; [reflexivity | lia]].
    destruct (Rge_dec top_width top_width) as [_|H]; [|lra].
    destruct (Rgt_dec (top_width - top_width) 0) as [H|_]; [lra|].
    eexists; split; [reflexivity|]. rewrite length_app; cbn; lia.
Qed.

End WaveLoop.

Lemma wave_points_enough_total
  (total_width wave_width bottom_width top_width height : R) :
  0 < wave_width -> wave_width <= total_width ->
  (wave_width - bottom_width) / 2 - (bottom_width - top_width) / 2 <> 0
  \/ pymod total_width wave_width = 0
  \/ pymod total_width wave_width = top_width ->
  exists p q rest,
    wave_points total_width wave_width bottom_width top_width height
    = Ok (p :: q :: rest)
    /\ p = create_point (- top_width / 2) height.
Proof.
  intros Hw Hle Hslope. unfold wave_points.
  destruct (Req_dec_T wave_width 0) as [H0|_]; [lra|].
  pose proof (floordiv_ge_1 total_width wave_width Hw Hle) as Hn.
  destruct (Z.to_nat (floordiv total_width wave_width)) as [|n] eqn:En; [lia|].
  set (st := wave_loop _ _ _ _ _ _ _ _).
  destruct (wave_remainder_total top_width height _ _
              (pymod total_width wave_width) (floordiv total_width wave_width)
              st Hslope) as [points [Hret Hlen]].
  rewrite Hret.
  pose proof (wave_loop_length bottom_width top_width height
                ((wave_width - bottom_width) / 2) ((bottom_width - top_width) / 2)
                (S n) 0 (- top_width / 2, [])) as Hloop.
  pose proof (wave_loop_first bottom_width top_width height
                ((wave_width - bottom_width) / 2) ((bottom_width - top_width) / 2)
                n (- top_width / 2)) as Hfirst.
  fold st in Hloop, Hfirst. cbn [snd List.length] in Hloop.
  assert (Hhd : hd_error points = Some (create_point (- top_width / 2) height)).
  { revert Hret. unfold wave_remainder. destruct st as [current_x pts].
    cbn [snd] in *. destruct pts as [|a pts]; [discriminate Hfirst|].
    destruct (_ && _); [|intros [= <-]; exact Hfirst].
    destruct (Rge_dec _ _); destruct (Rgt_dec _ _);
      try destruct (Req_dec_T _ _); intros [= <-]; exact Hfirst. }
  assert (Hfour : (4 <= List.length points)%nat) by lia.
  destruct points as [|p [|q rest]]; cbn [List.length] in Hfour; [lia | lia |].
  exists p, q, rest. split; [reflexivity|].
  cbn in Hhd. injection Hhd as ->. reflexivity.
Qed.

Lemma wave_points_enough (total_width wave_width bottom_width top_width height : R) :
  0 < wave_width -> wave_width <= total_width ->
  (wave_width - bottom_width) / 2 - (bottom_width - top_width) / 2 <> 0 ->
  exists p q rest,
    wave_points total_width wave_width bottom_width top_width height
    = Ok (p :: q :: rest)
    /\ p = create_point (- top_width / 2) height.
Proof.
  intros Hw Hle Hslope. apply wave_points_enough_total; auto.
Qed.





(** Outside the conditions above the partial slope is divided by zero:
    a vertical slope, with a remainder that is neither 0 nor the top
    width. *)
Lemma create_wave_profile_vertical_slope_raises
  (total_width wave_width bottom_width top_width height : R) (nm : option string) :
  0 < wave_width -> wave_width <= total_width ->
  (wave_width - bottom_width) / 2 = (bottom_width - top_width) / 2 ->
  pymod total_width wave_width <> 0 ->
  pymod total_width wave_width <> top_width ->
  create_wave_profile total_width wave_width bottom_width top_width height nm
  = Raise ZeroDivisionError.
Proof.
  intros Hw Hle Hslope Hrem0 Hremtop.
  assert (Hrem : 0 < pymod total_width wave_width).
  { assert (Hge : 0 <= pymod total_width wave_width).
    { unfold pymod. destruct (base_Int_part (total_width / wave_width)) as [Hfl _].
      assert (Hinv : 0 < / wave_width) by (apply Rinv_0_lt_compat; exact Hw).
      assert (Hone : wave_width * / wave_width = 1) by (field; lra).
      unfold Rdiv in Hfl. nra. }
    lra. }
  pose proof (floordiv_ge_1 total_width wave_width Hw Hle) as Hn.
  unfold create_wave_profile, wave_points.
  destruct (Req_dec_T wave_width 0) as [H0|_]; [lra|].
  destruct (wave_loop _ _ _ _ _ _ _ _) as [current_x points].
  unfold wave_remainder.
  destruct (Rgt_dec (pymod total_width wave_width) 0) as [_|H]; [|lra].
  replace (0 <? floordiv total_width wave_width)%Z with true
    by (symmetry; apply Z.ltb_lt; lia).
  cbn [andb].
  destruct (Rge_dec (pymod total_width wave_width) top_width) as [Hge|Hlt].
  - destruct (Rgt_dec (pymod total_width wave_width - top_width) 0) as [_|H]; [|lra].
    destruct (Req_dec_T _ 0) as [_|H]; [reflexivity | lra].
  - destruct (Rgt_dec (pymod total_width wave_width) 0) as [_|H]; [|lra].
    destruct (Req_dec_T _ 0) as [_|H]; [reflexivity | lra].
Qed.

(** A rectangular corrugation (vertical sides: wave_width = bottom_width +
    top_width) whose last partial wave reaches past the top flat divides by
    zero in the partial slope. *)
Example create_wave_profile_vertical_slope :
  create_wave_profile 7.5 3 2 1 1 None = Raise ZeroDivisionError.
Proof.
  unfold create_wave_profile, wave_points.
  destruct (Req_dec_T 3 0) as [H|_]; [lra|].
  assert (Hn : floordiv 7.5 3 = 2%Z).
  { unfold floordiv. symmetry; apply Int_part_spec. split; lra. }
  unfold pymod. fold (floordiv 7.5 3). rewrite Hn.
  destruct (wave_loop _ _ _ _ _ _ _ _) as [current_x points].
  unfold wave_remainder. cbn [Z.ltb Z.compare].
  destruct (Rgt_dec (7.5 - 2 * 3) 0) as [_|H]; [|lra]. cbn [andb].
  destruct (Rge_dec (7.5 - 2 * 3) 1) as [_|H]; [|lra].
  destruct (Rgt_dec (7.5 - 2 * 3 - 1) 0) as [_|H]; [|lra].
  destruct (Req_dec_T ((3 - 2) / 2 - (2 - 1) / 2) 0) as [_|H]; [reflexivity | lra].
Qed.

(** ** The closed wave profile *)

Lemma corrugated_points_fold (rest : list Point) :
  forall (q : Point) (acc : list Point),
    fold_left
      (fun corrugated_points element =>
         match corrugated_points with
         | [] => corrugated_points ++ [seg_start element]
         | _ :: _ => corrugated_points
         end ++ [seg_end element])
      (polyline_elements (q :: rest)) (acc ++ [q])
    = acc ++ q :: rest.
Proof.
  induction rest as [|r rest IH]; intros q acc; [reflexivity|].
  change (polyline_elements (q :: r :: rest))
    with (create_line_segment q r :: polyline_elements (r :: rest)).
  cbn [fold_left].
  replace (match acc ++ [q] with
           | [] => (acc ++ [q]) ++ [seg_start (create_line_segment q r)]
           | _ :: _ => acc ++ [q]
           end) with (acc ++ [q]) by (destruct acc; reflexivity).
  cbn [seg_end create_line_segment]. rewrite IH.
  rewrite <- app_assoc. reflexivity.
Qed.

Lemma corrugated_points_of_polyline (p q : Point) (rest : list Point) :
  corrugated_points_of (polyline_elements (p :: q :: rest)) = p :: q :: rest.
Proof.
  unfold corrugated_points_of.
  change (polyline_elements (p :: q :: rest))
    with (create_line_segment p q :: polyline_elements (q :: rest)).
  cbn [fold_left app seg_start seg_end create_line_segment].
  apply (corrugated_points_fold rest q [p]).
Qed.

(** A profile that [create_wave_profile] returns is the open polyline on
    at least two generated points. *)
Lemma create_wave_profile_inv
  (total_width wave_width bottom_width top_width height : R) (nm : option string)
  (open_profile : Curve) :
  create_wave_profile total_width wave_width bottom_width top_width height nm
  = Ok open_profile ->
  exists p q rest,
    wave_points total_width wave_width bottom_width top_width height
    = Ok (p :: q :: rest)
    /\ elements open_profile = polyline_elements (p :: q :: rest)
    /\ corrugated_points_of (elements open_profile) = p :: q :: rest.
Proof.
  unfold create_wave_profile.
  destruct (wave_points total_width wave_width bottom_width top_width height)
    as [points|e]; cbn [bind]; [|discriminate].
  destruct points as [|p [|q rest]]; [discriminate | discriminate |].
  destruct (create_polyline_two_or_more p q rest false
              (Some match nm with None => "Wave Profile"%string | Some n => n end))
    as [-> _].
  intros [= <-]. exists p, q, rest. cbn [polyline_curve elements].
  split; [reflexivity|]. split; [reflexivity|]. apply corrugated_points_of_polyline.
Qed.

Lemma close_corrugation_capped (first_point : Point) (rest : list Point)
  (height depth : R) (nm : string) :
  depth > height ->
  close_corrugation (first_point :: rest) height (Some depth) nm
  = Ok (polyline_curve (create_point (x first_point) depth)
          (capped_points first_point (last (first_point :: rest) first_point)
             (first_point :: rest) depth)
          true (Some nm)).
Proof.
  intros Hcap. unfold close_corrugation, closed_profile_points.
  destruct (Rgt_dec depth height) as [_|Hn]; [|contradiction].
  fold (capped_points first_point (last (first_point :: rest) first_point)
          (first_point :: rest) depth).
  unfold capped_points. cbn [app].
  apply create_polyline_two_or_more.
Qed.

Lemma point_eq (a a' b b' : R) :
  a = a' -> b = b' -> create_point a b = create_point a' b'.
Proof. intros -> ->; reflexivity. Qed.

Lemma cons_eq {A : Type} (a a' : A) (l l' : list A) :
  a = a' -> l = l' -> a :: l = a' :: l'.
Proof. intros -> ->; reflexivity. Qed.

(** Equality of two explicit lists of points, coordinate by coordinate. *)
Ltac points_eq :=
  repeat first [apply cons_eq | apply point_eq]; solve [reflexivity | lra].

Lemma wave_points_one_wave : wave_points 2 2 1 1 1 = Ok one_wave.
Proof.
  unfold wave_points.
  destruct (Req_dec_T 2 0) as [H|_]; [lra|].
  assert (Hn : floordiv 2 2 = 1%Z).
  { unfold floordiv. symmetry; apply Int_part_spec. split; lra. }
  unfold pymod. fold (floordiv 2 2). rewrite Hn.
  change (Z.to_nat 1) with 1%nat.
  cbn [wave_loop wave_body Nat.eqb app]. unfold wave_remainder.
  destruct (Rgt_dec (2 - 1 * 2) 0) as [H|_]; [lra|]. cbn [andb].
  f_equal. unfold one_wave. points_eq.
Qed.

Lemma create_wave_profile_one_wave (nm : string) :
  create_wave_profile 2 2 1 1 1 (Some nm)
  = Ok (mkCurve (polyline_elements one_wave) "open" (Some nm) None).
Proof.
  unfold create_wave_profile. rewrite wave_points_one_wave; cbn [bind].
  unfold one_wave. apply create_polyline_two_or_more.
Qed.

(** In capped mode the builder emits one point more than the cap, the drop
    and the reversed corrugation: on the one-wave profile with depth 2 the
    nine points below, the last one repeating the end of the reversed
    corrugation. The elements of a closed polyline start at its points, in
    order. *)
Lemma capped_profile_emits_extra_point :
  exists open_profile curve,
    create_wave_profile 2 2 1 1 1 (Some "Closed Wave Profile_open"%string)
    = Ok open_profile
    /\ corrugated_points_of (elements open_profile) = one_wave
    /\ create_closed_wave_profile 2 2 1 1 1 (Some 2) None = Ok curve
    /\ map seg_start (elements curve)
       = [create_point (-1 / 2) 2; create_point (5 / 2) 2; create_point (5 / 2) 1]
         ++ rev one_wave ++ [create_point (-1 / 2) 1]
    /\ map seg_start (elements curve)
       <> [create_point (-1 / 2) 2; create_point (5 / 2) 2; create_point (5 / 2) 1]
          ++ rev one_wave.
Proof.
  eexists; eexists.
  split; [apply create_wave_profile_one_wave|].
  cbn [elements]. split; [apply corrugated_points_of_polyline|].
  assert (Hret : create_closed_wave_profile 2 2 1 1 1 (Some 2) None
                 = Ok (polyline_curve (create_point (-1 / 2) 2)
                         (capped_points (create_point (-1 / 2) 1) (create_point (5 / 2) 1)
                            one_wave 2)
                         true (Some "Closed Wave Profile"%string))).
  { unfold create_closed_wave_profile.
    change ("Closed Wave Profile" ++ "_open")%string
      with "Closed Wave Profile_open"%string.
    rewrite create_wave_profile_one_wave; cbn [bind elements].
    unfold one_wave at 1. rewrite corrugated_points_of_polyline.
    rewrite close_corrugation_capped by lra. reflexivity. }
  split; [exact Hret|].
  assert (Hmap : map seg_start
                   (elements
                      (polyline_curve (create_point (-1 / 2) 2)
                         (capped_points (create_point (-1 / 2) 1)
                            (create_point (5 / 2) 1) one_wave 2)
                         true (Some "Closed Wave Profile"%string)))
                 = [create_point (-1 / 2) 2; create_point (5 / 2) 2;
                    create_point (5 / 2) 1]
                   ++ rev one_wave ++ [create_point (-1 / 2) 1]) by reflexivity.
  split; [exact Hmap|].
  rewrite Hmap. intros Heq. apply (f_equal (@List.length Point)) in Heq.
  cbn in Heq. discriminate Heq.
Qed.

Lemma map_seg_start_polyline (points : list Point) :
  map seg_start (polyline_elements points) = removelast points.
Proof.
  induction points as [|p [|q rest] IH]; [reflexivity | reflexivity |].
  change (polyline_elements (p :: q :: rest))
    with (create_line_segment p q :: polyline_elements (q :: rest)).
  change (removelast (p :: q :: rest)) with (p :: removelast (q :: rest)).
  cbn [map seg_start create_line_segment]. rewrite IH. reflexivity.
Qed.

Lemma closed_polyline_starts (first : Point) (points : list Point)
  (nm : option string) :
  points <> [] ->
  map seg_start (elements (polyline_curve first points true nm)) = points.
Proof.
  intros Hne. unfold polyline_curve; cbn [elements].
  rewrite map_app, map_seg_start_polyline. cbn [map seg_start create_line_segment].
  symmetry; apply app_removelast_last; assumption.
Qed.

(** C2, amended: in capped mode (depth given and greater than height), with
    [first] and [last] the first and last corrugation points read back from
    the open profile, the builder emits, in order, (first.x, depth),
    (last.x, depth), (last.x, last.y), the corrugation points in reverse
    order and then one more point, (first.x, first.y), which repeats the
    last of them; the closed polyline factory is called on exactly these
    points and its closing segment runs from (first.x, first.y) back to
    (first.x, depth). *)
Theorem create_closed_wave_profile_capped
  (total_width wave_width bottom_width top_width height depth : R)
  (nm : option string) (open_profile : Curve) :
  create_wave_profile total_width wave_width bottom_width top_width height
    (Some (match nm with None => "Closed Wave Profile" | Some n => n end
           ++ "_open")%string)
  = Ok open_profile ->
  depth > height ->
  exists first_point last_point curve,
    hd_error (corrugated_points_of (elements open_profile)) = Some first_point
    /\ last (corrugated_points_of (elements open_profile)) first_point = last_point
    /\ create_closed_wave_profile total_width wave_width bottom_width top_width
         height (Some depth) nm
       = Ok curve
    /\ curve_type curve = "closed"%string
    /\ map seg_start (elements curve)
       = [create_point (x first_point) depth;
          create_point (x last_point) depth;
          create_point (x last_point) (y last_point)]
         ++ rev (corrugated_points_of (elements open_profile))
         ++ [create_point (x first_point) (y first_point)]
    /\ last (elements curve) (create_line_segment first_point first_point)
       = create_line_segment (create_point (x first_point) (y first_point))
                             (create_point (x first_point) depth).
Proof.
  intros Hopen Hcap.
  destruct (create_wave_profile_inv _ _ _ _ _ _ _ Hopen)
    as (p & q & rest & _ & _ & Hcorr).
  rewrite Hcorr.
  exists p, (last (p :: q :: rest) p). eexists.
  split; [reflexivity|]. split; [reflexivity|].
  split.
  { unfold create_closed_wave_profile. rewrite Hopen; cbn [bind].
    rewrite Hcorr. apply close_corrugation_capped; assumption. }
  split; [reflexivity|]. split.
  - rewrite closed_polyline_starts; [reflexivity | discriminate].
  - unfold polyline_curve; cbn [elements]. rewrite last_last.
    unfold capped_points.
    rewrite app_assoc, last_last.
    reflexivity.
Qed.

Lemma create_closed_wave_profile_capped_witness :
  exists curve,
    create_closed_wave_profile 2 2 1 1 1 (Some 2) None = Ok curve
    /\ curve_type curve = "closed"%string.
Proof.
  destruct (create_closed_wave_profile_capped 2 2 1 1 1 2 None
              (mkCurve (polyline_elements one_wave) "open"
                 (Some "Closed Wave Profile_open"%string) None))
    as (first_point & last_point & curve & _ & _ & Hret & Hclosed & _).
  - apply create_wave_profile_one_wave.
  - lra.
  - exists curve; split; assumption.
Defined.

(** ** The empty corrugation *)

(** The branch for an empty list of corrugation points hands the empty
    list to the polyline factory. *)
Lemma close_corrugation_empty_raises :
  close_corrugation [] 44 (Some 150) "Closed Wave Profile"
  = Raise InsufficientPointsError
  /\ close_corrugation [] 44 None "Closed Wave Profile"
     = Raise InsufficientPointsError.
Proof. split; reflexivity. Qed.

Lemma create_polyline_closed_nonempty (points : list Point) (nm : option string)
  (curve : Curve) :
  create_polyline points true nm = Ok curve -> elements curve <> [].
Proof.
  destruct points as [|p [|q rest]]; [discriminate | discriminate |].
  destruct (create_polyline_two_or_more p q rest true nm) as [-> _].
  intros [= <-]. unfold polyline_curve; cbn [elements].
  discriminate.
Qed.

(** The branch for an empty list of corrugation points is never taken:
    the points read back from a profile that [create_wave_profile] returned
    are at least two, and every curve the builder returns has at least one
    element. Taken on its own, the branch calls the polyline factory on the
    empty list, which raises the error of too few points. *)
Lemma close_corrugation_empty
  (total_width wave_width bottom_width top_width height : R)
  (depth : option R) (nm : option string) (name : string) :
  close_corrugation [] height depth name = Raise InsufficientPointsError
  /\ (forall open_profile,
        create_wave_profile total_width wave_width bottom_width top_width height nm
        = Ok open_profile ->
        (2 <= List.length (corrugated_points_of (elements open_profile)))%nat)
  /\ (forall curve,
        create_closed_wave_profile total_width wave_width bottom_width top_width
          height depth nm = Ok curve ->
        elements curve <> []).
Proof.
  split; [reflexivity|]. split.
  - intros open_profile Hopen.
    destruct (create_wave_profile_inv _ _ _ _ _ _ _ Hopen)
      as (p & q & rest & _ & _ & ->).
    cbn; lia.
  - intros curve. unfold create_closed_wave_profile.
    destruct (create_wave_profile _ _ _ _ _ _) as [open_profile|e] eqn:Hopen;
      cbn [bind]; [|discriminate].
    destruct (create_wave_profile_inv _ _ _ _ _ _ _ Hopen)
      as (p & q & rest & _ & _ & ->).
    unfold close_corrugation. apply create_polyline_closed_nonempty.
Qed.

(** * Further properties *)

(** ** Validation in general *)

Lemma Continuous_cons (tolerance : R) (a b : Segment) (rest : list Segment) :
  Continuous tolerance (a :: b :: rest)
  <-> point_distance (seg_end a) (seg_start b) <= tolerance
      /\ Continuous tolerance (b :: rest).
Proof.
  unfold Continuous; split.
  - intros H; split; [apply (H 0%nat); reflexivity|].
    intros j a' b' Ha Hb. apply (H (S j)); assumption.
  - intros [H0 H] [|j] a' b' Ha Hb.
    + cbn in Ha, Hb. injection Ha as <-. injection Hb as <-. exact H0.
    + apply (H j); assumption.
Qed.

Lemma Continuous_short (tolerance : R) (elems : list Segment) :
  (List.length elems <= 1)%nat -> Continuous tolerance elems.
Proof.
  intros Hlen j a b Ha Hb.
  assert (S j < List.length elems)%nat by (apply nth_error_Some; congruence).
  lia.
Qed.

Lemma check_continuity_spec (tolerance : R) (elems : list Segment) :
  forall k,
    (check_continuity tolerance k elems = Ok tt /\ Continuous tolerance elems)
    \/ exists i, check_continuity tolerance k elems = Raise (DiscontinuityError (k + i))
                 /\ FirstGap tolerance elems i.
Proof.
  induction elems as [|a [|b rest] IH]; intros k.
  - left; split; [reflexivity | apply Continuous_short; cbn; lia].
  - left; split; [reflexivity | apply Continuous_short; cbn; lia].
  - cbn [check_continuity].
    destruct (Rgt_dec (point_distance (seg_end a) (seg_start b)) tolerance)
      as [Hgt|Hle].
    + right; exists 0%nat. rewrite Nat.add_0_r. split; [reflexivity|]. split.
      * exists a, b. auto.
      * intros j a' b' Hj; lia.
    + destruct (IH (S k)) as [[Hok Hcont]|[i [Hraise [Hbad Hbefore]]]].
      * left; split; [exact Hok|]. apply Continuous_cons; split; [lra | exact Hcont].
      * right; exists (S i). rewrite Nat.add_succ_r. split; [exact Hraise|]. split.
        -- exact Hbad.
        -- intros [|j] a' b' Hj Ha Hb.
           ++ cbn in Ha, Hb. injection Ha as <-. injection Hb as <-. lra.
           ++ apply (Hbefore j); [lia | assumption | assumption].
Qed.

Lemma FirstGap_not_Continuous (tolerance : R) (elems : list Segment) (i : nat) :
  FirstGap tolerance elems i -> ~ Continuous tolerance elems.
Proof.
  intros [(a & b & Ha & Hb & Hgt) _] Hcont. specialize (Hcont i a b Ha Hb). lra.
Qed.

Lemma FirstGap_unique (tolerance : R) (elems : list Segment) (i j : nat) :
  FirstGap tolerance elems i -> FirstGap tolerance elems j -> i = j.
Proof.
  intros [(a & b & Ha & Hb & Hgt) Hi] [(a' & b' & Ha' & Hb' & Hgt') Hj].
  destruct (Nat.lt_trichotomy i j) as [Hlt|[Heq|Hlt]]; [|exact Heq|].
  - specialize (Hj i a b Hlt Ha Hb). lra.
  - specialize (Hi j a' b' Hlt Ha' Hb'). lra.
Qed.

(** The continuity part of [validate_curve], whatever the length. *)
Lemma validate_continuity_spec (tolerance : R) (elems : list Segment) :
  ((if (1 <? List.length elems)%nat then check_continuity tolerance 0 elems
    else Ok tt) = Ok tt /\ Continuous tolerance elems)
  \/ exists i,
       (if (1 <? List.length elems)%nat then check_continuity tolerance 0 elems
        else Ok tt) = Raise (DiscontinuityError i)
       /\ FirstGap tolerance elems i.
Proof.
  destruct (1 <? List.length elems)%nat eqn:Hlen.
  - exact (check_continuity_spec tolerance elems 0).
  - left; split; [reflexivity|]. apply Continuous_short.
    apply Nat.ltb_ge in Hlen. exact Hlen.
Qed.

Lemma validate_closure_spec (curve : Curve) (tolerance : R) :
  Continuous tolerance (elements curve) ->
  (validate_curve curve tolerance = Ok true
   /\ (curve_type curve = "closed"%string -> Closes tolerance (elements curve)))
  \/ (validate_curve curve tolerance = Raise ClosureError
      /\ curve_type curve = "closed"%string
      /\ ~ Closes tolerance (elements curve)).
Proof.
  intros Hcont. unfold validate_curve.
  destruct (validate_continuity_spec tolerance (elements curve))
    as [[-> _]|[i [_ Hgap]]];
    [|exfalso; exact (FirstGap_not_Continuous _ _ _ Hgap Hcont)].
  cbn [bind]. unfold Closes.
  destruct (elements curve) as [|first rest] eqn:Helems.
  - left; split; [reflexivity|]. intros _ first Hfirst; discriminate.
  - destruct (String.eqb_spec (curve_type curve) "closed") as [Hc|Hc].
    + destruct (Rgt_dec _ tolerance) as [Hgt|Hle].
      * right. split; [reflexivity|]. split; [exact Hc|].
        intros H. specialize (H first eq_refl). lra.
      * left; split; [reflexivity|]. intros _ f [= <-]. lra.
    + left; split; [reflexivity|]. intros H; contradiction.
Qed.

(** The three outcomes of [validate_curve]. *)
Lemma validate_curve_outcome (curve : Curve) (tolerance : R) :
  (validate_curve curve tolerance = Ok true
   /\ Continuous tolerance (elements curve)
   /\ (curve_type curve = "closed"%string -> Closes tolerance (elements curve)))
  \/ (validate_curve curve tolerance = Raise ClosureError
      /\ Continuous tolerance (elements curve)
      /\ curve_type curve = "closed"%string
      /\ ~ Closes tolerance (elements curve))
  \/ (exists i, validate_curve curve tolerance = Raise (DiscontinuityError i)
                /\ FirstGap tolerance (elements curve) i).
Proof.
  destruct (validate_continuity_spec tolerance (elements curve))
    as [[Hok Hcont]|[k [Hraise Hgap]]].
  - destruct (validate_closure_spec curve tolerance Hcont) as [[H Hc]|(H & Hc & Hn)];
      [left | right; left]; auto.
  - right; right. exists k. unfold validate_curve. rewrite Hraise. auto.
Qed.

(** X1: [validate_curve] succeeds exactly when every adjacent pair of
    elements is within the tolerance and, for a closed curve, the last
    element ends within the tolerance of the start of the first. *)
Theorem validate_curve_ok_iff (curve : Curve) (tolerance : R) :
  validate_curve curve tolerance = Ok true
  <-> Continuous tolerance (elements curve)
      /\ (curve_type curve = "closed"%string -> Closes tolerance (elements curve)).
Proof.
  destruct (validate_curve_outcome curve tolerance)
    as [(-> & Hcont & Hclose)|[(-> & Hcont & Hc & Hn)|(i & -> & Hgap)]].
  - split; auto.
  - split; [discriminate|]. intros [_ H]. exfalso; auto.
  - split; [discriminate|]. intros [H _].
    exfalso; exact (FirstGap_not_Continuous _ _ _ Hgap H).
Qed.

(** X2: [validate_curve] raises the discontinuity error with index [i]
    exactly when [i] is the first index at which an element ends further
    than the tolerance from the start of the next one; the closure of the
    curve plays no part in it. *)
Theorem validate_curve_discontinuity_iff (curve : Curve) (tolerance : R) (i : nat) :
  validate_curve curve tolerance = Raise (DiscontinuityError i)
  <-> FirstGap tolerance (elements curve) i.
Proof.
  destruct (validate_curve_outcome curve tolerance)
    as [(-> & Hcont & Hclose)|[(-> & Hcont & Hc & Hn)|(k & -> & Hgap)]].
  - split; [discriminate|]. intros Hgap.
    exfalso; exact (FirstGap_not_Continuous _ _ _ Hgap Hcont).
  - split; [discriminate|]. intros Hgap.
    exfalso; exact (FirstGap_not_Continuous _ _ _ Hgap Hcont).
  - split.
    + intros [= <-]. exact Hgap.
    + intros Hi. rewrite (FirstGap_unique _ _ _ _ Hi Hgap). reflexivity.
Qed.

(** X3: [validate_curve] raises the closure error exactly when the curve is
    closed, every adjacent pair of elements is within the tolerance and the
    last element ends further than the tolerance from the start of the
    first; it raises no other error than these two. *)
Theorem validate_curve_closure_iff (curve : Curve) (tolerance : R) :
  (validate_curve curve tolerance = Raise ClosureError
   <-> Continuous tolerance (elements curve)
       /\ curve_type curve = "closed"%string
       /\ ~ Closes tolerance (elements curve))
  /\ validate_curve curve tolerance <> Raise InsufficientPointsError
  /\ validate_curve curve tolerance <> Raise ZeroDivisionError
  /\ validate_curve curve tolerance <> Ok false.
Proof.
  destruct (validate_curve_outcome curve tolerance)
    as [(-> & Hcont & Hclose)|[(-> & Hcont & Hc & Hn)|(k & -> & Hgap)]];
    (split; [|repeat split; discriminate]).
  - split; [discriminate|]. intros (_ & Hclosed & Hnot). exfalso; auto.
  - split; auto.
  - split; [discriminate|]. intros (Hcont & _).
    exfalso; exact (FirstGap_not_Continuous _ _ _ Hgap Hcont).
Qed.

(** X4: [create_curve] returns a curve only after the validation passed:
    the curve returned carries the arguments unchanged, its adjacent
    elements are within 1e-6 of each other and, when it is closed, so are
    its two ends; it returns one whenever that holds, and otherwise raises
    what [validate_curve] raises. *)
Theorem create_curve_validated (elems : list Segment) (ctype : string)
  (nm : option string) (mat : option Material) :
  (forall curve,
      create_curve elems ctype nm mat = Ok curve ->
      curve = mkCurve elems ctype nm mat
      /\ Continuous default_tolerance elems
      /\ (ctype = "closed"%string -> Closes default_tolerance elems))
  /\ (forall e,
        create_curve elems ctype nm mat = Raise e
        <-> validate_curve (mkCurve elems ctype nm mat) default_tolerance = Raise e)
  /\ ((exists curve, create_curve elems ctype nm mat = Ok curve)
      <-> Continuous default_tolerance elems
          /\ (ctype = "closed"%string -> Closes default_tolerance elems)).
Proof.
  unfold create_curve.
  destruct (validate_curve_outcome (mkCurve elems ctype nm mat) default_tolerance)
    as [(-> & Hcont & Hclose)|[(-> & Hcont & Hc & Hn)|(k & -> & Hgap)]];
    cbn [bind elements curve_type] in *.
  - split; [|split].
    + intros curve [= <-]. auto.
    + intros e; split; discriminate.
    + split; [auto | intros _; eexists; reflexivity].
  - split; [|split].
    + intros curve; discriminate.
    + intros e; split; intros [= <-]; reflexivity.
    + split; [intros [curve H]; discriminate|]. intros [_ H]. exfalso; auto.
  - split; [|split].
    + intros curve; discriminate.
    + intros e; split; intros [= <-]; reflexivity.
    + split; [intros [curve H]; discriminate|]. intros [H _].
      exfalso; exact (FirstGap_not_Continuous _ _ _ Hgap H).
Qed.

(** ** Lengths *)

Lemma arc_angle_bounds (arc : Arc) : 0 <= arc_angle arc <= 2 * PI.
Proof.
  unfold arc_angle; cbv zeta.
  pose proof (arctan2_range (y (arc_start arc) - y (center arc))
                            (x (arc_start arc) - x (center arc))) as Hs.
  pose proof (arctan2_range (y (arc_end arc) - y (center arc))
                            (x (arc_end arc) - x (center arc))) as He.
  set (sa := arctan2 (y (arc_start arc) - y (center arc)) _) in *.
  set (ea := arctan2 (y (arc_end arc) - y (center arc)) _) in *.
  split; [apply Rabs_pos|]. apply Rabs_le.
  destruct (clockwise arc); cbn [andb negb];
    destruct (Rgt_dec (ea - sa) 0); destruct (Rlt_dec (ea - sa) 0); cbn [andb]; lra.
Qed.

Lemma element_length_nonneg (element : Segment) : 0 <= element_length element.
Proof.
  destruct element as [s e|arc]; cbn [element_length].
  - apply point_distance_nonneg.
  - unfold arc_length. apply Rmult_le_pos;
      [apply point_distance_nonneg | apply arc_angle_bounds].
Qed.

Lemma fold_length_acc {A : Type} (f : A -> R) (l : list A) :
  forall acc, fold_left (fun acc a => acc + f a) l acc
              = acc + fold_left (fun acc a => acc + f a) l 0.
Proof.
  induction l as [|a l IH]; intros acc; cbn [fold_left]; [ring|].
  rewrite (IH (acc + f a)), (IH (0 + f a)). ring.
Qed.

Lemma fold_length_nonneg {A : Type} (f : A -> R) (l : list A) :
  (forall a, In a l -> 0 <= f a) ->
  0 <= fold_left (fun acc a => acc + f a) l 0
  /\ forall a, In a l -> f a <= fold_left (fun acc a => acc + f a) l 0.
Proof.
  induction l as [|b l IH]; intros Hf; cbn [fold_left];
    [split; [lra | intros a []]|].
  rewrite fold_length_acc.
  destruct IH as [IH0 IHin]; [intros a Ha; apply Hf; right; exact Ha|].
  pose proof (Hf b (or_introl eq_refl)) as Hb.
  split; [lra|]. intros a [<-|Ha]; [lra|]. specialize (IHin a Ha). lra.
Qed.

(** X5: the length of a curve is never negative, is at least the length
    of each of its elements, and the length of two element lists put end to
    end is the sum of their lengths. *)
Theorem curve_length_additive (elems1 elems2 : list Segment) :
  0 <= curve_length (curve_of elems1)
  /\ (forall e, In e elems1 -> 0 <= element_length e <= curve_length (curve_of elems1))
  /\ curve_length (curve_of (elems1 ++ elems2))
     = curve_length (curve_of elems1) + curve_length (curve_of elems2).
Proof.
  unfold curve_length, curve_of; cbn [elements].
  destruct (fold_length_nonneg element_length elems1) as [H0 Hin];
    [intros a _; apply element_length_nonneg|].
  split; [exact H0|]. split.
  - intros e He. split; [apply element_length_nonneg | apply Hin; exact He].
  - rewrite fold_left_app, fold_length_acc. reflexivity.
Qed.

(** X6: the length of an arc is never negative and never more than the
    circumference 2 PI r of the circle of its radius. *)
Theorem arc_length_bounds (arc : Arc) :
  0 <= arc_length arc <= 2 * PI * arc_radius arc.
Proof.
  unfold arc_length.
  pose proof (arc_angle_bounds arc) as [Ha0 Ha].
  assert (Hr : 0 <= arc_radius arc) by apply point_distance_nonneg.
  split; [apply Rmult_le_pos; assumption | nra].
Qed.

(** X7: [arc_angle] is the normalisation [swept] of the two directions
    computed for the start and the end, which lie in [-PI, PI]. For any two
    directions in [-PI, PI], the clockwise and the counter-clockwise angles
    add up to a full turn when the directions differ, and are both 0 when
    they are equal. *)
Theorem arc_angle_complement (s e c : Point) (start_angle end_angle : R) :
  - PI <= start_angle <= PI -> - PI <= end_angle <= PI ->
  (forall clockwise,
      arc_angle (mkArc s e c clockwise)
      = swept clockwise (direction c s) (direction c e))
  /\ - PI <= direction c s <= PI
  /\ - PI <= direction c e <= PI
  /\ (end_angle <> start_angle ->
      swept true start_angle end_angle + swept false start_angle end_angle
      = 2 * PI)
  /\ (end_angle = start_angle ->
      swept true start_angle end_angle = 0
      /\ swept false start_angle end_angle = 0).
Proof.
  intros Hs He.
  split; [intros clockwise; reflexivity|].
  split; [unfold direction;
          pose proof (arctan2_range (y s - y c) (x s - x c)); lra|].
  split; [unfold direction;
          pose proof (arctan2_range (y e - y c) (x e - x c)); lra|].
  unfold swept; cbv zeta; cbn [andb negb]. split.
  - intros Hne.
    destruct (Rgt_dec (end_angle - start_angle) 0) as [Hgt|Hngt];
      destruct (Rlt_dec (end_angle - start_angle) 0) as [Hlt|Hnlt]; try lra.
    + rewrite (Rabs_left1 (end_angle - start_angle - 2 * PI)) by lra.
      rewrite (Rabs_right (end_angle - start_angle)) by lra. ring.
    + rewrite (Rabs_left (end_angle - start_angle)) by lra.
      rewrite (Rabs_right (end_angle - start_angle + 2 * PI)) by lra. ring.
  - intros ->. replace (start_angle - start_angle) with 0 by ring.
    destruct (Rgt_dec 0 0); [lra|]. destruct (Rlt_dec 0 0); [lra|].
    rewrite Rabs_R0. split; reflexivity.
Qed.

(** The witness is the pair of directions PI and -PI, which [np.arctan2]
    returns for a start and an end on the negative x axis that differ in
    the sign of a zero y. *)
Lemma arc_angle_complement_witness :
  swept true PI (- PI) + swept false PI (- PI) = 2 * PI.
Proof.
  pose proof PI_RGT_0 as Hpi.
  apply (arc_angle_complement (create_point 0 0) (create_point 0 0)
           (create_point 0 0) PI (- PI)); lra.
Defined.

Lemma point_distance_dist_euc (p q : Point) :
  point_distance p q = dist_euc (x q) (y q) (x p) (y p).
Proof. unfold point_distance, dist_euc, Rsqr; cbv zeta. f_equal; ring. Qed.

(** X8: [point_distance] is a distance: it is never negative, it is 0 only
    between a point and itself, it does not depend on the order of the two
    points (so [line_length] is the same for a line and the line reversed)
    and it obeys the triangle inequality. *)
Theorem point_distance_metric (p q r : Point) :
  0 <= point_distance p q
  /\ (point_distance p q = 0 <-> p = q)
  /\ point_distance p q = point_distance q p
  /\ line_length (create_line_segment p q) = line_length (create_line_segment q p)
  /\ point_distance p q <= point_distance p r + point_distance r q.
Proof.
  split; [apply point_distance_nonneg|]. split; [|split; [|split]].
  - split; [|intros ->; apply point_distance_refl].
    unfold point_distance; cbv zeta. intros H0.
    apply sqrt_eq_0 in H0; [|apply Rplus_le_le_0_compat; apply pow2_ge_0].
    rewrite <- !Rsqr_pow2 in H0. apply Rplus_sqr_eq_0 in H0.
    destruct p as [px py], q as [qx qy]; cbn [x y] in *.
    f_equal; lra.
  - apply point_distance_sym.
  - unfold line_length; cbn [seg_start seg_end create_line_segment].
    apply point_distance_sym.
  - rewrite (point_distance_dist_euc p q), (point_distance_dist_euc p r),
      (point_distance_dist_euc r q), Rplus_comm.
    apply triangle.
Qed.

(** ** Rectangles and trapezoids *)

Lemma point_distance_horizontal (a a' b : R) :
  point_distance (create_point a b) (create_point a' b) = Rabs (a' - a).
Proof.
  unfold point_distance; cbn [x y].
  replace ((a' - a) ^ 2 + (b - b) ^ 2) with (Rsqr (a' - a)) by (unfold Rsqr; ring).
  apply sqrt_Rsqr_abs.
Qed.

Lemma point_distance_vertical (a b b' : R) :
  point_distance (create_point a b) (create_point a b') = Rabs (b' - b).
Proof.
  unfold point_distance; cbn [x y].
  replace ((a - a) ^ 2 + (b' - b) ^ 2) with (Rsqr (b' - b)) by (unfold Rsqr; ring).
  apply sqrt_Rsqr_abs.
Qed.

(** Four lines through four corners, back to the first. *)
Lemma create_curve_quadrilateral (p1 p2 p3 p4 : Point) (nm : option string) :
  create_curve [create_line_segment p1 p2; create_line_segment p2 p3;
                create_line_segment p3 p4; create_line_segment p4 p1]
               "closed" nm None
  = Ok (mkCurve [create_line_segment p1 p2; create_line_segment p2 p3;
                 create_line_segment p3 p4; create_line_segment p4 p1]
                "closed" nm None).
Proof.
  unfold create_curve. rewrite validate_chained_closed; [reflexivity | | |].
  - unfold default_tolerance; lra.
  - repeat constructor.
  - intros first [= <-]. reflexivity.
Qed.

Lemma calculate_bounds_box (curves : list Curve) (lo_x hi_x lo_y hi_y : R) :
  (forall p, In p (all_points curves) ->
             lo_x <= x p <= hi_x /\ lo_y <= y p <= hi_y) ->
  In lo_x (map x (all_points curves)) -> In hi_x (map x (all_points curves)) ->
  In lo_y (map y (all_points curves)) -> In hi_y (map y (all_points curves)) ->
  _calculate_bounds curves = mkBounds lo_x hi_x lo_y hi_y.
Proof.
  intros Hbox Hlx Hhx Hly Hhy. unfold _calculate_bounds.
  destruct (all_points curves) as [|q ps]; [destruct Hlx|].
  destruct (list_min_spec (map x ps) (x q)) as [Hminx Hinminx].
  destruct (list_max_spec (map x ps) (x q)) as [Hmaxx Hinmaxx].
  destruct (list_min_spec (map y ps) (y q)) as [Hminy Hinminy].
  destruct (list_max_spec (map y ps) (y q)) as [Hmaxy Hinmaxy].
  change (x q :: map x ps) with (map x (q :: ps)) in *.
  change (y q :: map y ps) with (map y (q :: ps)) in *.
  assert (Hx : forall v, In v (map x (q :: ps)) -> lo_x <= v <= hi_x).
  { intros v Hv. apply in_map_iff in Hv. destruct Hv as [p [<- Hp]].
    apply Hbox; exact Hp. }
  assert (Hy : forall v, In v (map y (q :: ps)) -> lo_y <= v <= hi_y).
  { intros v Hv. apply in_map_iff in Hv. destruct Hv as [p [<- Hp]].
    apply Hbox; exact Hp. }
  pose proof (Hminx _ Hlx). pose proof (Hmaxx _ Hhx).
  pose proof (Hminy _ Hly). pose proof (Hmaxy _ Hhy).
  pose proof (Hx _ Hinminx). pose proof (Hx _ Hinmaxx).
  pose proof (Hy _ Hinminy). pose proof (Hy _ Hinmaxy).
  f_equal; lra.
Qed.

(** X9: [create_rectangle] never raises, whatever the sign of the width
    and of the height: it returns a closed curve of four lines whose length
    is the perimeter 2 (|width| + |height|). For a width and a height that
    are not negative its bounds are the rectangle itself, from the origin to
    (origin.x + width, origin.y + height). *)
Theorem create_rectangle_spec (width height : R) (origin : option Point)
  (nm : option string) :
  exists curve,
    create_rectangle width height origin nm = Ok curve
    /\ curve_type curve = "closed"%string
    /\ name curve = nm
    /\ List.length (elements curve) = 4%nat
    /\ curve_length curve = 2 * (Rabs width + Rabs height)
    /\ (0 <= width -> 0 <= height ->
        forall o, o = match origin with None => create_point 0 0 | Some o => o end ->
        _calculate_bounds [curve]
        = mkBounds (x o) (x o + width) (y o) (y o + height)).
Proof.
  unfold create_rectangle; cbv zeta.
  remember (match origin with None => create_point 0 0 | Some o => o end)
    as o eqn:Ho.
  rewrite create_curve_quadrilateral. eexists; split; [reflexivity|].
  split; [reflexivity|]. split; [reflexivity|]. split; [reflexivity|]. split.
  - unfold curve_length; cbn [elements fold_left element_length create_line_segment].
    unfold line_length; cbn [seg_start seg_end create_line_segment].
    destruct o as [ox oy]; cbn [x y].
    rewrite (point_distance_horizontal ox (ox + width) oy),
      (point_distance_vertical (ox + width) oy (oy + height)),
      (point_distance_horizontal (ox + width) ox (oy + height)),
      (point_distance_vertical ox (oy + height) oy).
    replace (ox + width - ox) with width by ring.
    replace (oy + height - oy) with height by ring.
    replace (ox - (ox + width)) with (- width) by ring.
    replace (oy - (oy + height)) with (- height) by ring.
    rewrite !Rabs_Ropp. ring.
  - intros Hw Hh o' ->. apply calculate_bounds_box.
    + intros p Hp. cbn in Hp. destruct o as [ox oy]; cbn [x y] in *.
      repeat destruct Hp as [<-|Hp]; try destruct Hp; cbn [x y]; lra.
    + destruct o; cbn; auto.
    + cbn; auto.
    + destruct o; cbn; auto.
    + cbn; auto 10.
Qed.

(** X10: [create_trapezoid] never raises: it returns a closed curve of four
    lines, the bottom from the origin, the top centered over it at the given
    height, whose length is |bottom_width| + |top_width| and twice the
    length of a slanted side. *)
Theorem create_trapezoid_spec (bottom_width top_width height : R)
  (origin : option Point) (nm : option string) :
  exists curve,
    create_trapezoid bottom_width top_width height origin nm = Ok curve
    /\ curve_type curve = "closed"%string
    /\ name curve = nm
    /\ List.length (elements curve) = 4%nat
    /\ curve_length curve
       = Rabs bottom_width + Rabs top_width
         + 2 * sqrt (((bottom_width - top_width) / 2) ^ 2 + height ^ 2).
Proof.
  unfold create_trapezoid; cbv zeta.
  remember (match origin with None => create_point 0 0 | Some o => o end)
    as o eqn:Ho.
  rewrite create_curve_quadrilateral. eexists; split; [reflexivity|].
  split; [reflexivity|]. split; [reflexivity|]. split; [reflexivity|].
  unfold curve_length; cbn [elements fold_left element_length create_line_segment].
  unfold line_length; cbn [seg_start seg_end create_line_segment].
  destruct o as [ox oy]; cbn [x y].
  rewrite (point_distance_horizontal ox (ox + bottom_width) oy),
    (point_distance_horizontal _ _ (oy + height)).
  replace (ox + bottom_width - ox) with bottom_width by ring.
  replace (ox + (bottom_width - top_width) / 2
           - (ox + bottom_width - (bottom_width - top_width) / 2))
    with (- top_width) by field.
  rewrite Rabs_Ropp.
  unfold point_distance; cbn [x y].
  replace ((ox + bottom_width - (bottom_width - top_width) / 2 - (ox + bottom_width)) ^ 2
           + (oy + height - oy) ^ 2)
    with (((bottom_width - top_width) / 2) ^ 2 + height ^ 2) by field.
  replace ((ox - (ox + (bottom_width - top_width) / 2)) ^ 2 + (oy - (oy + height)) ^ 2)
    with (((bottom_width - top_width) / 2) ^ 2 + height ^ 2) by field.
  ring.
Qed.

(** ** The floor profile array *)

Lemma create_rectangle_at (width height : R) (origin : Point) (nm : option string) :
  create_rectangle width height (Some origin) nm
  = Ok (rectangle_curve width height origin nm).
Proof. unfold create_rectangle; cbv zeta. apply create_curve_quadrilateral. Qed.

Lemma floor_layers_stacked (layers : list (string * R)) (width : R) :
  forall curves current_y,
    floor_layers layers width curves current_y
    = Ok (curves ++ stacked layers width current_y).
Proof.
  induction layers as [|[material thickness] rest IH]; intros curves current_y.
  - cbn. rewrite app_nil_r. reflexivity.
  - cbn [floor_layers stacked]. rewrite create_rectangle_at; cbn [bind].
    rewrite IH, <- app_assoc. reflexivity.
Qed.

Lemma stacked_length (layers : list (string * R)) (width : R) :
  forall current_y,
    List.length (stacked layers width current_y) = List.length layers.
Proof.
  induction layers as [|[material thickness] rest IH]; intros current_y;
    [reflexivity|]. cbn [stacked List.length]. rewrite IH. reflexivity.
Qed.

Lemma stacked_nth (layers : list (string * R)) (width : R) :
  forall k current_y material thickness,
    nth_error layers k = Some (material, thickness) ->
    nth_error (stacked layers width current_y) k
    = Some (rectangle_curve width thickness
              (create_point 0
                 (fold_left (fun current_y layer => current_y + snd layer)
                            (firstn k layers) current_y))
              (Some material)).
Proof.
  induction layers as [|[m t] rest IH]; intros [|k] current_y material thickness Hk;
    try discriminate Hk.
  - cbn in Hk. injection Hk as -> ->. reflexivity.
  - cbn [stacked nth_error firstn fold_left snd]. apply IH. exact Hk.
Qed.

Lemma stacked_closed (layers : list (string * R)) (width : R) :
  forall current_y,
    Forall (fun curve => curve_type curve = "closed"%string)
           (stacked layers width current_y).
Proof.
  induction layers as [|[m t] rest IH]; intros current_y; constructor;
    [reflexivity | apply IH].
Qed.

Lemma filter_all {A : Type} (f : A -> bool) (l : list A) :
  Forall (fun a => f a = true) l -> filter f l = l.
Proof.
  induction 1 as [|a l Ha _ IH]; [reflexivity|]. cbn. rewrite Ha, IH. reflexivity.
Qed.

Lemma filter_none {A : Type} (f : A -> bool) (l : list A) :
  Forall (fun a => f a = false) l -> filter f l = [].
Proof.
  induction 1 as [|a l Ha _ IH]; [reflexivity|]. cbn. rewrite Ha, IH. reflexivity.
Qed.

(** X11: [create_floor_profile_array] never raises: it returns an array
    named "Floor Profile" with one closed rectangle per layer, in order,
    the rectangle of a layer being named after its material, as wide as the
    profile, as high as the layer is thick and placed at the height that is
    the sum of the thicknesses of the layers before it. All its curves are
    closed: [get_closed_curves] returns them all and [get_open_curves]
    none. *)
Theorem create_floor_profile_array_spec (layers : list (string * R)) (width : R) :
  exists curve_array,
    create_floor_profile_array layers width = Ok curve_array
    /\ array_name curve_array = Some "Floor Profile"%string
    /\ List.length (curves curve_array) = List.length layers
    /\ (forall k material thickness,
          nth_error layers k = Some (material, thickness) ->
          exists curve,
            nth_error (curves curve_array) k = Some curve
            /\ create_rectangle width thickness
                 (Some (create_point 0 (thickness_below layers k))) (Some material)
               = Ok curve)
    /\ get_closed_curves curve_array = curves curve_array
    /\ get_open_curves curve_array = [].
Proof.
  unfold create_floor_profile_array. rewrite floor_layers_stacked; cbn [bind app].
  eexists; split; [reflexivity|]. cbn [array_name curves].
  split; [reflexivity|]. split; [apply stacked_length|]. split; [|split].
  - intros k material thickness Hk. eexists; split.
    + apply stacked_nth; exact Hk.
    + apply create_rectangle_at.
  - unfold get_closed_curves; cbn [curves]. apply filter_all.
    eapply Forall_impl; [|apply stacked_closed]. intros c ->. reflexivity.
  - unfold get_open_curves; cbn [curves]. apply filter_none.
    eapply Forall_impl; [|apply stacked_closed]. intros c ->. reflexivity.
Qed.

Lemma fold_thickness_ge (layers : list (string * R)) :
  (forall layer, In layer layers -> 0 <= snd layer) ->
  forall current_y,
    current_y <= fold_left (fun current_y layer => current_y + snd layer)
                           layers current_y.
Proof.
  induction layers as [|l rest IH]; intros Hpos current_y; cbn [fold_left]; [lra|].
  pose proof (Hpos l (or_introl eq_refl)).
  pose proof (IH (fun layer Hin => Hpos layer (or_intror Hin)) (current_y + snd l)).
  lra.
Qed.

Lemma all_points_cons (curve : Curve) (curves : list Curve) :
  all_points (curve :: curves)
  = flat_map element_points (elements curve) ++ all_points curves.
Proof. reflexivity. Qed.

Lemma stacked_points (layers : list (string * R)) (width : R) :
  0 <= width ->
  (forall layer, In layer layers -> 0 <= snd layer) ->
  forall current_y p,
    In p (all_points (stacked layers width current_y)) ->
    0 <= x p <= width
    /\ current_y <= y p
       <= fold_left (fun current_y layer => current_y + snd layer) layers current_y.
Proof.
  intros Hw. induction layers as [|[m t] rest IH]; intros Hpos current_y p Hp;
    [destruct Hp|].
  assert (Ht : 0 <= t) by (apply (Hpos (m, t)); left; reflexivity).
  assert (Hrest : forall layer, In layer rest -> 0 <= snd layer)
    by (intros layer Hin; apply Hpos; right; exact Hin).
  pose proof (fold_thickness_ge rest Hrest (current_y + t)) as Hge.
  cbn [stacked] in Hp. rewrite all_points_cons in Hp. apply in_app_or in Hp.
  cbn [fold_left snd]. destruct Hp as [Hp|Hp].
  - cbn in Hp. repeat destruct Hp as [<-|Hp]; try destruct Hp; cbn [x y]; lra.
  - specialize (IH Hrest (current_y + t) p Hp). lra.
Qed.

Lemma stacked_top (layers : list (string * R)) (width : R) :
  layers <> [] ->
  forall current_y,
    In (fold_left (fun current_y layer => current_y + snd layer) layers current_y)
       (map y (all_points (stacked layers width current_y))).
Proof.
  induction layers as [|[m t] [|l rest] IH]; intros Hne current_y; [congruence| |].
  - cbn. auto 10.
  - change (stacked ((m, t) :: l :: rest) width current_y)
      with (rectangle_curve width t (create_point 0 current_y) (Some m)
            :: stacked (l :: rest) width (current_y + t)).
    rewrite all_points_cons, map_app. apply in_or_app. right.
    apply (IH ltac:(discriminate) (current_y + t)).
Qed.

(** X12: for at least one layer, a width and thicknesses that are not
    negative, the bounds of the floor profile are the rectangle from (0, 0)
    to (width, total thickness). *)
Theorem floor_profile_bounds (layers : list (string * R)) (width : R) :
  layers <> [] -> 0 <= width ->
  (forall layer, In layer layers -> 0 <= snd layer) ->
  exists curve_array,
    create_floor_profile_array layers width = Ok curve_array
    /\ get_curve_bounds (curves curve_array)
       = mkBounds 0 width 0 (thickness_below layers (List.length layers)).
Proof.
  intros Hne Hw Hpos.
  unfold create_floor_profile_array. rewrite floor_layers_stacked; cbn [bind app].
  eexists; split; [reflexivity|]. cbn [curves]. unfold get_curve_bounds.
  unfold thickness_below. rewrite firstn_all.
  apply calculate_bounds_box.
  - intros p Hp. apply (stacked_points layers width); assumption.
  - destruct layers as [|[m t] rest]; [congruence|]. cbn. auto.
  - destruct layers as [|[m t] rest]; [congruence|]. cbn.
    right; left. ring.
  - destruct layers as [|[m t] rest]; [congruence|]. cbn. auto.
  - apply stacked_top; assumption.
Qed.

Lemma floor_profile_bounds_witness :
  exists curve_array,
    create_floor_profile_array [("concrete"%string, 0.2); ("screed"%string, 0.05)] 1
    = Ok curve_array
    /\ get_curve_bounds (curves curve_array)
       = mkBounds 0 1 0
           (thickness_below [("concrete"%string, 0.2); ("screed"%string, 0.05)] 2).
Proof.
  apply (floor_profile_bounds [("concrete"%string, 0.2); ("screed"%string, 0.05)] 1).
  - discriminate.
  - lra.
  - intros layer [<-|[<-|[]]]; cbn; lra.
Defined.

(** ** The wave profile, point by point *)

Lemma last_app_nonempty {A : Type} (l l' : list A) (d : A) :
  l' <> [] -> last (l ++ l') d = last l' d.
Proof.
  intros Hne. induction l as [|a l IH]; [reflexivity|].
  cbn [app]. destruct (l ++ l') as [|b r] eqn:E.
  - apply app_eq_nil in E. destruct E as [_ E]. congruence.
  - exact IH.
Qed.

Section WaveLoopExact.

Variables bottom_width top_width height side_slope_width top_offset : R.

Let period := wave_period bottom_width top_width side_slope_width top_offset.

(** What [n] passes of the loop append, from the pass of index [wave] on. *)
Lemma wave_loop_generated (n : nat) :
  forall wave current_x points,
  exists generated,
    wave_loop bottom_width top_width height side_slope_width top_offset n wave
      (current_x, points)
    = (current_x + INR n * period, points ++ generated)
    /\ List.length generated
       = (match wave, n with O, S _ => 4 * n + 1 | _, _ => 4 * n end)%nat
    /\ Forall (fun p => y p = height \/ y p = 0) generated
    /\ ((0 < n)%nat ->
        last generated (create_point current_x height)
        = create_point (current_x + INR n * period) height
        /\ Exists (fun p => y p = 0) generated).
Proof.
  induction n as [|n IH]; intros wave current_x points.
  - exists []. cbn [wave_loop INR]. rewrite app_nil_r.
    split; [f_equal; ring|]. split; [destruct wave; reflexivity|].
    split; [constructor | intros H; lia].
  - cbn [wave_loop]. unfold wave_body at 1.
    set (x1 := current_x + top_width).
    set (x2 := x1 + (side_slope_width - top_offset)).
    set (x3 := x2 + bottom_width).
    set (x4 := x3 + (side_slope_width - top_offset)).
    set (opening := if (wave =? 0)%nat then [create_point current_x height] else []).
    set (pass := opening ++ [create_point x1 height; create_point x2 0;
                           create_point x3 0; create_point x4 height]).
    replace (((((if (wave =? 0)%nat
                 then points ++ [create_point current_x height] else points)
                ++ [create_point x1 height]) ++ [create_point x2 0])
              ++ [create_point x3 0]) ++ [create_point x4 height])
      with (points ++ pass)
      by (unfold pass, opening; destruct (wave =? 0)%nat;
          repeat rewrite <- app_assoc; reflexivity).
    destruct (IH (S wave) x4 (points ++ pass)) as (g & Hloop & Hlen & Hys & Hlast).
    exists (pass ++ g). rewrite Hloop. split.
    { f_equal; [|rewrite app_assoc; reflexivity].
      rewrite S_INR. unfold x4, x3, x2, x1, period, wave_period. ring. }
    assert (Hx4 : x4 + INR n * period = current_x + INR (S n) * period).
    { rewrite S_INR. unfold x4, x3, x2, x1, period, wave_period. ring. }
    split; [|split; [|intros _; split]].
    + rewrite length_app, Hlen. unfold pass, opening.
      destruct wave, n; cbn [Nat.eqb]; rewrite length_app; cbn [List.length]; lia.
    + apply Forall_app; split; [|exact Hys].
      unfold pass, opening. destruct (wave =? 0)%nat; cbn [app];
        repeat (apply Forall_cons; [cbn [y]; auto|]); apply Forall_nil.
    + destruct n as [|n].
      * destruct g as [|a g]; [|cbn in Hlen; discriminate Hlen].
        rewrite app_nil_r. unfold pass.
        change [create_point x1 height; create_point x2 0; create_point x3 0;
                create_point x4 height]
          with ([create_point x1 height; create_point x2 0; create_point x3 0]
                ++ [create_point x4 height]).
        rewrite app_assoc, last_last. rewrite <- Hx4. cbn [INR]. f_equal; ring.
      * destruct (Hlast ltac:(lia)) as [Hl _].
        assert (Hg : g <> []) by (intros ->; cbn in Hlen; discriminate Hlen).
        rewrite last_app_nonempty by exact Hg.
        rewrite (last_default_irrelevant g _ (create_point x4 height) Hg), Hl, Hx4.
        reflexivity.
    + apply Exists_app; left. unfold pass. apply Exists_app; right.
      apply Exists_cons_tl, Exists_cons_hd. reflexivity.
Qed.

End WaveLoopExact.

Lemma Int_part_IZR (k : Z) : Int_part (IZR k) = k.
Proof. symmetry; apply Int_part_spec. lra. Qed.

Lemma wave_period_width (wave_width bottom_width top_width : R) :
  wave_period bottom_width top_width ((wave_width - bottom_width) / 2)
              ((bottom_width - top_width) / 2)
  = 2 * top_width + wave_width - bottom_width.
Proof. unfold wave_period. field. Qed.

(** X13: when the total width is a whole number k >= 1 of wave widths,
    [create_wave_profile] returns a curve of exactly 4 k lines (4 k + 1
    points, no partial wave), which starts at (-top_width/2, height) and
    ends at height [height], k times the width
    2 top_width + wave_width - bottom_width further to the right. *)
Theorem create_wave_profile_whole_waves
  (total_width wave_width bottom_width top_width height : R) (nm : option string)
  (k : Z) :
  wave_width <> 0 -> (1 <= k)%Z -> total_width = IZR k * wave_width ->
  exists curve,
    create_wave_profile total_width wave_width bottom_width top_width height nm
    = Ok curve
    /\ List.length (elements curve) = (4 * Z.to_nat k)%nat
    /\ option_map seg_start (hd_error (elements curve))
       = Some (create_point (- top_width / 2) height)
    /\ forall d,
         seg_end (last (elements curve) d)
         = create_point
             (- top_width / 2 + IZR k * (2 * top_width + wave_width - bottom_width))
             height.
Proof.
  intros Hw Hk ->. unfold create_wave_profile, wave_points.
  destruct (Req_dec_T wave_width 0) as [H0|_]; [contradiction|].
  assert (Hn : floordiv (IZR k * wave_width) wave_width = k).
  { unfold floordiv. replace (IZR k * wave_width / wave_width) with (IZR k)
      by (field; exact Hw). apply Int_part_IZR. }
  unfold pymod. fold (floordiv (IZR k * wave_width) wave_width). rewrite Hn.
  destruct (Z.to_nat k) as [|n] eqn:En; [lia|].
  destruct (wave_loop_generated bottom_width top_width height
              ((wave_width - bottom_width) / 2) ((bottom_width - top_width) / 2)
              (S n) 0 (- top_width / 2) []) as (g & Hloop & Hlen & _ & Hlast).
  pose proof (wave_loop_first bottom_width top_width height
                ((wave_width - bottom_width) / 2) ((bottom_width - top_width) / 2)
                n (- top_width / 2)) as Hfirst.
  rewrite Hloop in Hfirst |- *. cbn [snd app] in Hfirst.
  destruct (Hlast ltac:(lia)) as [Hl _]. clear Hlast Hloop.
  unfold wave_remainder.
  destruct (Rgt_dec (IZR k * wave_width - IZR k * wave_width) 0) as [Hgt|_]; [lra|].
  cbn [andb app bind].
  destruct g as [|p [|q rest]]; [discriminate Hlen | cbn in Hlen; lia |].
  destruct (create_polyline_two_or_more p q rest false
              (Some match nm with None => "Wave Profile"%string | Some n0 => n0 end))
    as [Hret _].
  rewrite Hret. eexists; split; [reflexivity|].
  unfold polyline_curve; cbn [elements].
  split; [rewrite polyline_elements_length, Hlen; cbn [List.length]; lia|].
  split.
  - cbn in Hfirst. injection Hfirst as ->. reflexivity.
  - intros d. rewrite polyline_elements_last.
    rewrite (last_default_irrelevant (p :: q :: rest) p
               (create_point (- top_width / 2) height)) by discriminate.
    rewrite Hl, wave_period_width.
    rewrite INR_IZR_INZ, <- En, Z2Nat.id by lia. reflexivity.
Qed.

Lemma create_wave_profile_whole_waves_witness :
  exists curve,
    create_wave_profile 875 175 65 50 44 None = Ok curve
    /\ List.length (elements curve) = 20%nat.
Proof.
  destruct (create_wave_profile_whole_waves 875 175 65 50 44 None 5)
    as (curve & Hret & Hlen & _); [lra | lia | lra |].
  exists curve; split; [exact Hret | exact Hlen].
Defined.

Lemma slope_y_range (height remaining slope : R) :
  0 <= height -> 0 < slope -> 0 < remaining ->
  0 <= height * (1 - Rmin (remaining / slope) 1) <= height.
Proof.
  intros Hh Hs Hr.
  assert (Hq : 0 < remaining / slope) by (apply Rdiv_lt_0_compat; assumption).
  assert (Hm : 0 < Rmin (remaining / slope) 1 <= 1).
  { split; [apply Rmin_glb_lt; lra | apply Rmin_r]. }
  split; nra.
Qed.

(** The points of a profile lie between the base line and the height, and
    some of them on the base line. *)
Lemma wave_points_heights
  (total_width wave_width bottom_width top_width height : R) (points : list Point) :
  0 <= height ->
  (bottom_width - top_width) / 2 < (wave_width - bottom_width) / 2 ->
  wave_points total_width wave_width bottom_width top_width height = Ok points ->
  Forall (fun p => 0 <= y p <= height) points
  /\ (points <> [] -> Exists (fun p => y p = 0) points).
Proof.
  intros Hh Hslope. unfold wave_points.
  destruct (Req_dec_T wave_width 0) as [H0|_]; [discriminate|].
  set (num_waves := floordiv total_width wave_width).
  destruct (wave_loop_generated bottom_width top_width height
              ((wave_width - bottom_width) / 2) ((bottom_width - top_width) / 2)
              (Z.to_nat num_waves) 0 (- top_width / 2) [])
    as (g & -> & Hlen & Hys & Hlast).
  cbn [app]. set (current_x := _ + _ * _).
  assert (Hg : Forall (fun p => 0 <= y p <= height) g).
  { eapply Forall_impl; [|exact Hys]. intros p [-> | ->]; lra. }
  assert (Hex : g <> [] -> Exists (fun p => y p = 0) g).
  { intros Hne. apply Hlast. destruct (Z.to_nat num_waves); [|lia].
    destruct g; [congruence | discriminate Hlen]. }
  assert (Hempty : (0 <? num_waves)%Z = false -> g = []).
  { intros Hz. apply Z.ltb_ge in Hz.
    replace (Z.to_nat num_waves) with 0%nat in Hlen by lia.
    destruct g; [reflexivity | discriminate Hlen]. }
  unfold wave_remainder.
  destruct (Rgt_dec (pymod total_width wave_width) 0) as [Hrem|Hrem]; cbn [andb];
    [|intros [= <-]; auto].
  destruct (0 <? num_waves)%Z eqn:Hz; [|intros [= <-]; auto].
  assert (Hne : g <> []).
  { apply Z.ltb_lt in Hz. intros ->.
    destruct (Z.to_nat num_waves) eqn:E; [lia | discriminate Hlen]. }
  specialize (Hex Hne).
  assert (Hd : 0 < (wave_width - bottom_width) / 2 - (bottom_width - top_width) / 2)
    by lra.
  destruct (Rge_dec (pymod total_width wave_width) top_width) as [Hge|Hlt].
  - destruct (Rgt_dec (pymod total_width wave_width - top_width) 0) as [Hpos|Hnpos].
    + destruct (Req_dec_T _ 0) as [Habs|_]; [lra|]. intros [= <-]. split.
      * apply Forall_app; split; [apply Forall_app; split; [exact Hg|]|];
          (apply Forall_cons; [cbn [y] | apply Forall_nil]);
          [lra | apply slope_y_range; assumption].
      * intros _. apply Exists_app; left. apply Exists_app; left. exact Hex.
    + intros [= <-]. split.
      * apply Forall_app; split; [exact Hg|].
        apply Forall_cons; [cbn [y]; lra | apply Forall_nil].
      * intros _. apply Exists_app; left. exact Hex.
  - destruct (Rgt_dec (pymod total_width wave_width) 0) as [Hpos|Hnpos]; [|lra].
    destruct (Req_dec_T _ 0) as [Habs|_]; [lra|]. intros [= <-]. split.
    + apply Forall_app; split; [exact Hg|].
      apply Forall_cons; [cbn [y]; apply slope_y_range; assumption | apply Forall_nil].
    + intros _. apply Exists_app; left. exact Hex.
Qed.

(** ** Points and bounds of polylines *)

Lemma polyline_elements_points (points : list Point) (p : Point) :
  In p (flat_map element_points (polyline_elements points)) -> In p points.
Proof.
  induction points as [|a [|b rest] IH]; [intros [] | intros [] |].
  change (polyline_elements (a :: b :: rest))
    with (create_line_segment a b :: polyline_elements (b :: rest)).
  cbn [flat_map element_points create_line_segment seg_start seg_end app].
  intros [<-|[<-|H]]; [left; reflexivity | right; left; reflexivity |].
  right. apply IH. exact H.
Qed.

Lemma polyline_points_covered (points : list Point) (p : Point) :
  (2 <= List.length points)%nat -> In p points ->
  In p (flat_map element_points (polyline_elements points)).
Proof.
  induction points as [|a [|b rest] IH]; intros Hlen Hp;
    [cbn in Hlen; lia | cbn in Hlen; lia |].
  change (polyline_elements (a :: b :: rest))
    with (create_line_segment a b :: polyline_elements (b :: rest)).
  cbn [flat_map element_points create_line_segment seg_start seg_end app].
  destruct Hp as [<-|[<-|Hp]]; [left; reflexivity | right; left; reflexivity |].
  right; right. destruct rest as [|c rest]; [destruct Hp|].
  apply IH; [cbn; lia | right; exact Hp].
Qed.

Lemma last_In {A : Type} (l : list A) (d : A) : l <> [] -> In (last l d) l.
Proof.
  induction l as [|a [|b l] IH]; intros Hne; [congruence | left; reflexivity |].
  right. apply IH. discriminate.
Qed.

Lemma polyline_curve_points (a b : Point) (rest : list Point) (closed : bool)
  (nm : option string) (p : Point) :
  In p (all_points [polyline_curve a (a :: b :: rest) closed nm])
  <-> In p (a :: b :: rest).
Proof.
  unfold all_points; cbn [flat_map]. rewrite app_nil_r.
  unfold polyline_curve. destruct closed; cbn [elements]; split.
  - rewrite flat_map_app, in_app_iff. intros [H|H].
    + apply polyline_elements_points; exact H.
    + change (flat_map element_points
                [create_line_segment (last (a :: b :: rest) a) a])
        with [last (a :: b :: rest) a; a] in H.
      destruct H as [<-|[<-|[]]]; [|left; reflexivity].
      apply last_In; discriminate.
  - intros H. rewrite flat_map_app, in_app_iff. left.
    apply polyline_points_covered; [cbn; lia | exact H].
  - apply polyline_elements_points.
  - apply polyline_points_covered; cbn; lia.
Qed.

Lemma calculate_bounds_y_range (curves : list Curve) (lo_y hi_y : R) :
  (forall p, In p (all_points curves) -> lo_y <= y p <= hi_y) ->
  In lo_y (map y (all_points curves)) -> In hi_y (map y (all_points curves)) ->
  min_y (_calculate_bounds curves) = lo_y
  /\ max_y (_calculate_bounds curves) = hi_y.
Proof.
  intros Hbox Hly Hhy. unfold _calculate_bounds.
  destruct (all_points curves) as [|q ps]; [destruct Hly|].
  cbn [min_y max_y].
  destruct (list_min_spec (map y ps) (y q)) as [Hminy Hinminy].
  destruct (list_max_spec (map y ps) (y q)) as [Hmaxy Hinmaxy].
  change (y q :: map y ps) with (map y (q :: ps)) in *.
  assert (Hy : forall v, In v (map y (q :: ps)) -> lo_y <= v <= hi_y).
  { intros v Hv. apply in_map_iff in Hv. destruct Hv as [p [<- Hp]].
    apply Hbox; exact Hp. }
  pose proof (Hminy _ Hly). pose proof (Hmaxy _ Hhy).
  pose proof (Hy _ Hinminy). pose proof (Hy _ Hinmaxy).
  split; lra.
Qed.

Lemma Exists_in_map_y (points : list Point) (v : R) :
  Exists (fun p => y p = v) points -> In v (map y points).
Proof.
  intros H. apply Exists_exists in H. destruct H as [p [Hp <-]].
  apply in_map; exact Hp.
Qed.

Lemma create_wave_profile_returns
  (total_width wave_width bottom_width top_width height : R) (nm : option string) :
  0 < wave_width -> wave_width <= total_width ->
  (wave_width - bottom_width) / 2 - (bottom_width - top_width) / 2 <> 0 ->
  exists curve,
    create_wave_profile total_width wave_width bottom_width top_width height nm
    = Ok curve.
Proof.
  intros Hw Hle Hslope.
  destruct (wave_points_enough total_width wave_width bottom_width top_width
              height Hw Hle Hslope) as (p & q & rest & Hpts & _).
  unfold create_wave_profile. rewrite Hpts; cbn [bind].
  eexists. apply create_polyline_two_or_more.
Qed.

(** X14: when the height is not negative and the slopes lean outwards
    (top_offset < side_slope_width), every point of a profile that
    [create_wave_profile] returns lies between the base line y = 0 and
    y = height, and both are reached: the bounds of the profile have
    min_y = 0 and max_y = height. *)
Theorem create_wave_profile_heights
  (total_width wave_width bottom_width top_width height : R) (nm : option string)
  (curve : Curve) :
  0 <= height ->
  (bottom_width - top_width) / 2 < (wave_width - bottom_width) / 2 ->
  create_wave_profile total_width wave_width bottom_width top_width height nm
  = Ok curve ->
  (forall p, In p (all_points [curve]) -> 0 <= y p <= height)
  /\ min_y (_calculate_bounds [curve]) = 0
  /\ max_y (_calculate_bounds [curve]) = height.
Proof.
  intros Hh Hslope Hret.
  assert (Hcurve : exists p q rest,
             wave_points total_width wave_width bottom_width top_width height
             = Ok (p :: q :: rest)
             /\ curve = polyline_curve p (p :: q :: rest) false
                          (Some match nm with
                                | None => "Wave Profile"%string
                                | Some n => n
                                end)).
  { revert Hret. unfold create_wave_profile.
    destruct (wave_points _ _ _ _ _) as [[|p [|q rest]]|e]; cbn [bind];
      try discriminate.
    destruct (create_polyline_two_or_more p q rest false
                (Some match nm with None => "Wave Profile"%string | Some n => n end))
      as [-> _].
    intros [= <-]. exists p, q, rest. split; reflexivity. }
  destruct Hcurve as (p & q & rest & Hpts & ->).
  destruct (wave_points_heights _ _ _ _ _ _ Hh Hslope Hpts) as [Hall Hzero].
  assert (Hbox : forall p0,
             In p0 (all_points [polyline_curve p (p :: q :: rest) false
                                  (Some match nm with
                                        | None => "Wave Profile"%string
                                        | Some n => n
                                        end)]) ->
             0 <= y p0 <= height).
  { intros p0 Hp0. apply polyline_curve_points in Hp0.
    rewrite Forall_forall in Hall. apply Hall; exact Hp0. }
  split; [exact Hbox|].
  apply calculate_bounds_y_range; [exact Hbox | |].
  - specialize (Hzero ltac:(discriminate)). apply Exists_exists in Hzero.
    destruct Hzero as [p0 [Hin <-]]. apply in_map.
    apply polyline_curve_points; exact Hin.
  - assert (Hfirst : y p = height).
    { assert (Hw : wave_width <> 0).
      { intros ->. unfold wave_points in Hpts.
        destruct (Req_dec_T 0 0); [discriminate | congruence]. }
      revert Hpts. unfold wave_points.
      destruct (Req_dec_T wave_width 0) as [|_]; [contradiction|].
      destruct (Z.to_nat (floordiv total_width wave_width)) as [|n] eqn:En.
      - cbn [wave_loop]. unfold wave_remainder.
        replace (0 <? floordiv total_width wave_width)%Z with false
          by (symmetry; apply Z.ltb_ge; lia).
        rewrite andb_false_r. discriminate.
      - pose proof (wave_loop_first bottom_width top_width height
                      ((wave_width - bottom_width) / 2)
                      ((bottom_width - top_width) / 2) n (- top_width / 2))
          as Hhd.
        destruct (wave_loop _ _ _ _ _ _ _ _) as [cx pts]. cbn [snd] in Hhd.
        destruct pts as [|a pts]; [discriminate Hhd|].
        cbn in Hhd. injection Hhd as ->.
        unfold wave_remainder. destruct (_ && _); [|intros [= <- _]; reflexivity].
        destruct (Rge_dec _ _); destruct (Rgt_dec _ _);
          try destruct (Req_dec_T _ _); intros [= <- _]; reflexivity. }
    rewrite <- Hfirst. apply in_map. apply polyline_curve_points. left; reflexivity.
Qed.

Lemma create_wave_profile_heights_witness :
  exists curve,
    create_wave_profile 875 175 65 50 44 None = Ok curve
    /\ max_y (_calculate_bounds [curve]) = 44.
Proof.
  destruct (create_wave_profile_returns 875 175 65 50 44 None) as [curve Hret];
    try lra.
  exists curve. split; [exact Hret|].
  apply (create_wave_profile_heights 875 175 65 50 44 None curve);
    [lra | lra | exact Hret].
Defined.

(** ** The closed wave profile in general *)

Lemma close_corrugation_returns (p q : Point) (rest : list Point) (height : R)
  (depth : option R) (nm : string) :
  exists curve,
    close_corrugation (p :: q :: rest) height depth nm = Ok curve
    /\ curve_type curve = "closed"%string
    /\ name curve = Some nm
    /\ map seg_start (elements curve)
       = closed_profile_points p (last (p :: q :: rest) p) (p :: q :: rest)
           height depth
    /\ forall p0,
         In p0 (all_points [curve])
         <-> In p0 (closed_profile_points p (last (p :: q :: rest) p)
                      (p :: q :: rest) height depth).
Proof.
  unfold close_corrugation.
  assert (Hshape : exists a b r,
             closed_profile_points p (last (p :: q :: rest) p) (p :: q :: rest)
               height depth = a :: b :: r).
  { unfold closed_profile_points.
    destruct (match depth with
              | Some d => if Rgt_dec d height then true else false
              | None => false
              end).
    - do 3 eexists. cbn [app]. reflexivity.
    - destruct (Req_dec_T (y (last (p :: q :: rest) p)) 0);
        destruct (Req_dec_T (y p) 0); do 3 eexists; cbn [app]; reflexivity. }
  destruct Hshape as (a & b & r & ->).
  destruct (create_polyline_two_or_more a b r true (Some nm)) as [-> _].
  eexists; split; [reflexivity|]. split; [reflexivity|]. split; [reflexivity|].
  split; [apply closed_polyline_starts; discriminate|].
  intros p0. apply polyline_curve_points.
Qed.

Lemma create_wave_profile_name
  (total_width wave_width bottom_width top_width height : R)
  (nm nm' : option string) :
  (forall e,
      create_wave_profile total_width wave_width bottom_width top_width height nm
      = Raise e ->
      create_wave_profile total_width wave_width bottom_width top_width height nm'
      = Raise e)
  /\ ((exists curve,
         create_wave_profile total_width wave_width bottom_width top_width height nm
         = Ok curve) ->
      exists curve,
        create_wave_profile total_width wave_width bottom_width top_width height nm'
        = Ok curve).
Proof.
  unfold create_wave_profile.
  destruct (wave_points _ _ _ _ _) as [[|p [|q rest]]|e0]; cbn [bind].
  - split; [intros e H; exact H | intros [c H]; discriminate H].
  - split; [intros e H; exact H | intros [c H]; discriminate H].
  - destruct (create_polyline_two_or_more p q rest false
                (Some match nm with None => "Wave Profile"%string | Some n => n end))
      as [-> _].
    destruct (create_polyline_two_or_more p q rest false
                (Some match nm' with None => "Wave Profile"%string | Some n => n end))
      as [-> _].
    split; [intros e H; discriminate H | intros _; eexists; reflexivity].
  - split; [intros e H; exact H | intros [c H]; discriminate H].
Qed.

(** X15: closing a wave profile adds no failure: for every depth,
    [create_closed_wave_profile] returns a curve exactly when
    [create_wave_profile] does on the same dimensions, whatever the names,
    and otherwise raises the same error; the curve it returns is closed. *)
Theorem create_closed_wave_profile_iff_open
  (total_width wave_width bottom_width top_width height : R)
  (depth : option R) (nm nm' : option string) :
  (forall e,
      create_closed_wave_profile total_width wave_width bottom_width top_width
        height depth nm = Raise e
      <-> create_wave_profile total_width wave_width bottom_width top_width
            height nm' = Raise e)
  /\ ((exists curve,
         create_closed_wave_profile total_width wave_width bottom_width top_width
           height depth nm = Ok curve)
      <-> exists open_profile,
            create_wave_profile total_width wave_width bottom_width top_width
              height nm' = Ok open_profile)
  /\ (forall curve,
        create_closed_wave_profile total_width wave_width bottom_width top_width
          height depth nm = Ok curve ->
        curve_type curve = "closed"%string).
Proof.
  set (name := match nm with None => "Closed Wave Profile"%string | Some n => n end).
  pose proof (create_wave_profile_name total_width wave_width bottom_width
                top_width height (Some (name ++ "_open")%string) nm') as [Hto Hto'].
  pose proof (create_wave_profile_name total_width wave_width bottom_width
                top_width height nm' (Some (name ++ "_open")%string))
    as [Hfrom Hfrom'].
  unfold create_closed_wave_profile. fold name.
  destruct (create_wave_profile total_width wave_width bottom_width top_width
              height (Some (name ++ "_open")%string)) as [open_profile|e0] eqn:Hopen;
    cbn [bind].
  - destruct (create_wave_profile_inv _ _ _ _ _ _ _ Hopen)
      as (p & q & rest & _ & _ & ->).
    destruct (close_corrugation_returns p q rest height depth name)
      as (curve & -> & Hclosed & _).
    destruct Hto' as [open' Hopen']; [eexists; reflexivity|].
    split; [|split].
    + intros e; split; [discriminate|]. rewrite Hopen'. discriminate.
    + split; intros _; eexists; [exact Hopen' | reflexivity].
    + intros c [= <-]. exact Hclosed.
  - pose proof (Hto e0 eq_refl) as Hraise.
    split; [|split].
    + intros e. rewrite Hraise. split; intros [= <-]; reflexivity.
    + rewrite Hraise. split; intros [c H]; discriminate H.
    + intros c H; discriminate H.
Qed.

(** X16: in uncapped mode (no depth, or a depth that does not exceed the
    height) the builder emits the corrugation points read back from the open
    profile in their order, then (last.x, 0) unless the last point is on the
    base line, then (first.x, 0) unless the first point is; the closed
    polyline factory is called on exactly these points. *)
Theorem create_closed_wave_profile_uncapped
  (total_width wave_width bottom_width top_width height : R)
  (depth : option R) (nm : option string) (open_profile : Curve) :
  create_wave_profile total_width wave_width bottom_width top_width height
    (Some (match nm with None => "Closed Wave Profile" | Some n => n end
           ++ "_open")%string)
  = Ok open_profile ->
  (forall d, depth = Some d -> d <= height) ->
  exists first_point last_point curve,
    hd_error (corrugated_points_of (elements open_profile)) = Some first_point
    /\ last (corrugated_points_of (elements open_profile)) first_point = last_point
    /\ create_closed_wave_profile total_width wave_width bottom_width top_width
         height depth nm
       = Ok curve
    /\ curve_type curve = "closed"%string
    /\ map seg_start (elements curve)
       = corrugated_points_of (elements open_profile)
         ++ (if Req_dec_T (y last_point) 0 then []
             else [create_point (x last_point) 0])
         ++ (if Req_dec_T (y first_point) 0 then []
             else [create_point (x first_point) 0]).
Proof.
  intros Hopen Hdepth.
  destruct (create_wave_profile_inv _ _ _ _ _ _ _ Hopen)
    as (p & q & rest & _ & _ & Hcorr).
  rewrite Hcorr.
  destruct (close_corrugation_returns p q rest height depth
              match nm with None => "Closed Wave Profile"%string | Some n => n end)
    as (curve & Hret & Hclosed & _ & Hstarts & _).
  exists p, (last (p :: q :: rest) p), curve.
  split; [reflexivity|]. split; [reflexivity|]. split.
  { unfold create_closed_wave_profile. rewrite Hopen; cbn [bind].
    rewrite Hcorr. exact Hret. }
  split; [exact Hclosed|].
  rewrite Hstarts. unfold closed_profile_points.
  assert (Hcap : match depth with
                 | Some d => if Rgt_dec d height then true else false
                 | None => false
                 end = false).
  { destruct depth as [d|]; [|reflexivity].
    specialize (Hdepth d eq_refl). destruct (Rgt_dec d height); [lra | reflexivity]. }
  rewrite Hcap.
  destruct (Req_dec_T (y (last (p :: q :: rest) p)) 0);
    destruct (Req_dec_T (y p) 0); cbn [app];
    repeat rewrite app_nil_r; repeat rewrite <- app_assoc; reflexivity.
Qed.

Lemma create_closed_wave_profile_uncapped_witness :
  exists curve,
    create_closed_wave_profile 2 2 1 1 1 None None = Ok curve
    /\ curve_type curve = "closed"%string.
Proof.
  destruct (create_closed_wave_profile_uncapped 2 2 1 1 1 None None
              (mkCurve (polyline_elements one_wave) "open"
                 (Some "Closed Wave Profile_open"%string) None))
    as (first_point & last_point & curve & _ & _ & Hret & Hclosed & _).
  - apply create_wave_profile_one_wave.
  - intros d Hd; discriminate Hd.
  - exists curve; split; assumption.
Defined.

Lemma Ok_inj {A : Type} (a b : A) : Ok a = Ok b -> a = b.
Proof. intros H; injection H as ->; reflexivity. Qed.

(** X17: for a height that is not negative, slopes that lean outwards and a
    depth above the height, the bounds of the capped profile that
    [create_closed_wave_profile] returns reach from the base line to the
    depth: min_y = 0 and max_y = depth. *)
Theorem capped_profile_bounds
  (total_width wave_width bottom_width top_width height depth : R)
  (nm : option string) (curve : Curve) :
  0 <= height -> height < depth ->
  (bottom_width - top_width) / 2 < (wave_width - bottom_width) / 2 ->
  create_closed_wave_profile total_width wave_width bottom_width top_width height
    (Some depth) nm = Ok curve ->
  min_y (get_curve_bounds [curve]) = 0
  /\ max_y (get_curve_bounds [curve]) = depth.
Proof.
  intros Hh Hd Hslope. unfold create_closed_wave_profile, get_curve_bounds.
  destruct (create_wave_profile _ _ _ _ _ _) as [open_profile|e] eqn:Hopen;
    cbn [bind]; [|discriminate].
  destruct (create_wave_profile_inv _ _ _ _ _ _ _ Hopen)
    as (p & q & rest & Hpts & _ & ->).
  destruct (wave_points_heights _ _ _ _ _ _ Hh Hslope Hpts) as [Hall Hzero].
  specialize (Hzero ltac:(discriminate)).
  rewrite Forall_forall in Hall.
  rewrite close_corrugation_capped by lra. intros Hret.
  apply Ok_inj in Hret. subst curve.
  set (closed_curve := polyline_curve _ _ _ _).
  assert (Hpoints : forall p0,
             In p0 (all_points [closed_curve])
             <-> In p0 (capped_points p (last (p :: q :: rest) p)
                          (p :: q :: rest) depth)).
  { intros p0. unfold closed_curve, capped_points. cbn [app].
    apply polyline_curve_points. }
  assert (Hlast : In (last (p :: q :: rest) p) (p :: q :: rest))
    by (apply last_In; discriminate).
  apply calculate_bounds_y_range.
  - intros p0 Hp0. apply Hpoints in Hp0. unfold capped_points in Hp0.
    apply in_app_or in Hp0. destruct Hp0 as [Hp0|Hp0].
    + destruct Hp0 as [<-|[<-|[<-|[]]]]; cbn [y]; try lra.
      specialize (Hall _ Hlast). lra.
    + apply in_app_or in Hp0. destruct Hp0 as [Hp0|[<-|[]]].
      * apply in_rev in Hp0. specialize (Hall _ Hp0). lra.
      * cbn [y]. specialize (Hall p (or_introl eq_refl)). lra.
  - apply Exists_exists in Hzero. destruct Hzero as [p0 [Hin <-]].
    apply in_map. apply Hpoints. unfold capped_points.
    apply in_or_app; right. apply in_or_app; left. apply in_rev.
    rewrite rev_involutive. exact Hin.
  - change depth with (y (create_point (x p) depth)) at 1.
    apply in_map. apply Hpoints. left; reflexivity.
Qed.

Lemma capped_profile_bounds_witness :
  exists curve,
    create_closed_wave_profile 2 2 1 1 1 (Some 2) None = Ok curve
    /\ min_y (get_curve_bounds [curve]) = 0
    /\ max_y (get_curve_bounds [curve]) = 2.
Proof.
  assert (Hret : exists curve,
             create_closed_wave_profile 2 2 1 1 1 (Some 2) None = Ok curve).
  { unfold create_closed_wave_profile.
    change ("Closed Wave Profile" ++ "_open")%string
      with "Closed Wave Profile_open"%string.
    rewrite create_wave_profile_one_wave; cbn [bind elements].
    unfold one_wave at 1. rewrite corrugated_points_of_polyline.
    rewrite close_corrugation_capped by lra. eexists; reflexivity. }
  destruct Hret as [curve Hret]. exists curve. split; [exact Hret|].
  apply (capped_profile_bounds 2 2 1 1 1 2 None curve); [lra | lra | lra | exact Hret].
Defined.

(** X18: a polyline keeps its points: from the curve [create_polyline]
    returns for an open polyline, the loop of [create_closed_wave_profile]
    that reads points back returns the points given, over one line fewer
    than there are points; a closed polyline has one line per point, each
    starting at its point. *)
Theorem create_polyline_round_trip (points : list Point) (closed : bool)
  (nm : option string) (curve : Curve) :
  create_polyline points closed nm = Ok curve ->
  (2 <= List.length points)%nat
  /\ name curve = nm
  /\ (closed = false ->
      corrugated_points_of (elements curve) = points
      /\ S (List.length (elements curve)) = List.length points)
  /\ (closed = true ->
      map seg_start (elements curve) = points
      /\ List.length (elements curve) = List.length points).
Proof.
  destruct points as [|p [|q rest]]; [discriminate | discriminate |].
  destruct (create_polyline_two_or_more p q rest closed nm) as [-> _].
  intros [= <-]. split; [cbn; lia|].
  split; [unfold polyline_curve; destruct closed; reflexivity|]. split.
  - intros ->. unfold polyline_curve; cbn [elements].
    split; [apply corrugated_points_of_polyline|].
    rewrite polyline_elements_length. reflexivity.
  - intros ->. split; [apply closed_polyline_starts; discriminate|].
    unfold polyline_curve; cbn [elements].
    rewrite length_app, polyline_elements_length. cbn [List.length]. lia.
Qed.

Lemma create_polyline_round_trip_witness :
  corrugated_points_of
    (elements (polyline_curve (create_point 0 0)
                 [create_point 0 0; create_point 3 4; create_point 3 0] false None))
  = [create_point 0 0; create_point 3 4; create_point 3 0].
Proof.
  apply (create_polyline_round_trip
           [create_point 0 0; create_point 3 4; create_point 3 0] false None
           (polyline_curve (create_point 0 0)
              [create_point 0 0; create_point 3 4; create_point 3 0] false None)).
  - apply create_polyline_two_or_more.
  - reflexivity.
Defined.

(** ** The transform on the canvas *)

(** X19: whatever the bounds and the viewer, the transform of
    [_create_transform] sends the center of the bounds to the center of the
    canvas (width/2, height/2). *)
Theorem create_transform_center (self : SVGCurveViewer) (bounds : Bounds) :
  apply (_create_transform self bounds)
        ((min_x bounds + max_x bounds) / 2) ((min_y bounds + max_y bounds) / 2)
  = (IZR (width self) / 2, IZR (height self) / 2).
Proof.
  unfold _create_transform; cbv zeta; cbn [apply]. f_equal; ring.
Qed.

Lemma create_transform_scale_le (self : SVGCurveViewer) (bounds : Bounds) :
  min_x bounds <= max_x bounds -> min_y bounds <= max_y bounds ->
  scale (_create_transform self bounds) * (1.1 * (max_x bounds - min_x bounds))
  <= IZR (view_width self)
  /\ scale (_create_transform self bounds) * (1.1 * (max_y bounds - min_y bounds))
     <= IZR (view_height self)
  \/ scale (_create_transform self bounds) < 0.
Proof.
  intros Hx Hy.
  destruct (Rlt_dec (scale (_create_transform self bounds)) 0) as [Hneg|Hpos];
    [right; exact Hneg | left].
  revert Hpos. unfold _create_transform; cbv zeta; cbn [scale].
  set (dw := if Req_dec_T (max_x bounds - min_x bounds) 0 then 1
             else max_x bounds - min_x bounds).
  set (dh := if Req_dec_T (max_y bounds - min_y bounds) 0 then 1
             else max_y bounds - min_y bounds).
  assert (Hdw : 0 < dw /\ max_x bounds - min_x bounds <= dw)
    by (unfold dw; destruct (Req_dec_T (max_x bounds - min_x bounds) 0); lra).
  assert (Hdh : 0 < dh /\ max_y bounds - min_y bounds <= dh)
    by (unfold dh; destruct (Req_dec_T (max_y bounds - min_y bounds) 0); lra).
  set (sx := IZR (view_width self) / (dw * (1 + 0.1))).
  set (sy := IZR (view_height self) / (dh * (1 + 0.1))).
  intros Hs.
  assert (Hsx : sx * (dw * (1 + 0.1)) = IZR (view_width self))
    by (unfold sx; field; lra).
  assert (Hsy : sy * (dh * (1 + 0.1)) = IZR (view_height self))
    by (unfold sy; field; lra).
  pose proof (Rmin_l sx sy). pose proof (Rmin_r sx sy).
  split; nra.
Qed.

(** X20: for bounds that are not inverted and a viewer whose view width and
    height are not negative, the transform keeps every point of the bounds
    inside the margins of the canvas; it keeps the order of the points from
    left to right and, the y axis being flipped, reverses their order from
    bottom to top. *)
Theorem create_transform_within_margins (self : SVGCurveViewer) (bounds : Bounds)
  (p q : Point) :
  min_x bounds <= max_x bounds -> min_y bounds <= max_y bounds ->
  (0 <= view_width self)%Z -> (0 <= view_height self)%Z ->
  min_x bounds <= x p <= max_x bounds -> min_y bounds <= y p <= max_y bounds ->
  (IZR (margin self) <= x (transform_point (_create_transform self bounds) p)
   <= IZR (width self) - IZR (margin self))
  /\ (IZR (margin self) <= y (transform_point (_create_transform self bounds) p)
      <= IZR (height self) - IZR (margin self))
  /\ (x p <= x q ->
      x (transform_point (_create_transform self bounds) p)
      <= x (transform_point (_create_transform self bounds) q))
  /\ (y p <= y q ->
      y (transform_point (_create_transform self bounds) q)
      <= y (transform_point (_create_transform self bounds) p)).
Proof.
  intros Hx Hy Hw Hh Hpx Hpy.
  pose proof (create_transform_scale_nonneg self bounds Hx Hy Hw Hh) as Hs.
  destruct (create_transform_scale_le self bounds Hx Hy) as [[Hsx Hsy]|Hneg];
    [|lra].
  assert (Hvw : IZR (view_width self) = IZR (width self) - 2 * IZR (margin self))
    by (unfold view_width; rewrite minus_IZR, mult_IZR; reflexivity).
  assert (Hvh : IZR (view_height self) = IZR (height self) - 2 * IZR (margin self))
    by (unfold view_height; rewrite minus_IZR, mult_IZR; reflexivity).
  apply IZR_le in Hw, Hh.
  revert Hs Hsx Hsy. unfold transform_point, _create_transform; cbv zeta.
  cbn [apply scale x y]. set (s := Rmin _ _). intros Hs Hsx Hsy.
  repeat split; try (intros Hpq); nra.
Qed.

Lemma create_transform_within_margins_witness :
  IZR (margin default_viewer)
  <= x (transform_point (_create_transform default_viewer (mkBounds 0 1 0 1))
          (create_point 1 0))
  <= IZR (width default_viewer) - IZR (margin default_viewer).
Proof.
  apply (create_transform_within_margins default_viewer (mkBounds 0 1 0 1)
           (create_point 1 0) (create_point 1 0));
    cbn; solve [lra | lia].
Defined.

Lemma create_transform_scale_pos (self : SVGCurveViewer) (bounds : Bounds) :
  min_x bounds <= max_x bounds -> min_y bounds <= max_y bounds ->
  (0 < view_width self)%Z -> (0 < view_height self)%Z ->
  0 < scale (_create_transform self bounds).
Proof.
  intros Hx Hy Hw Hh. unfold _create_transform; cbv zeta; cbn [scale].
  apply IZR_lt in Hw, Hh.
  apply Rmin_glb_lt.
  - destruct (Req_dec_T (max_x bounds - min_x bounds) 0);
      apply Rdiv_lt_0_compat; lra.
  - destruct (Req_dec_T (max_y bounds - min_y bounds) 0);
      apply Rdiv_lt_0_compat; lra.
Qed.

(** X21: the bounds [_calculate_bounds] returns are never inverted, so for
    a viewer with a positive view width and height the transform made from
    them has a positive scale, multiplies every distance by it and sends
    different points to different canvas points. *)
Theorem calculated_transform_positive (self : SVGCurveViewer)
  (curves : list Curve) (p q : Point) :
  (0 < view_width self)%Z -> (0 < view_height self)%Z ->
  min_x (_calculate_bounds curves) <= max_x (_calculate_bounds curves)
  /\ min_y (_calculate_bounds curves) <= max_y (_calculate_bounds curves)
  /\ 0 < scale (_create_transform self (_calculate_bounds curves))
  /\ point_distance
       (transform_point (_create_transform self (_calculate_bounds curves)) p)
       (transform_point (_create_transform self (_calculate_bounds curves)) q)
     = scale (_create_transform self (_calculate_bounds curves))
       * point_distance p q
  /\ (transform_point (_create_transform self (_calculate_bounds curves)) p
      = transform_point (_create_transform self (_calculate_bounds curves)) q ->
      p = q).
Proof.
  intros Hw Hh.
  destruct (calculate_bounds_ordered curves) as [Hx Hy].
  pose proof (create_transform_scale_pos self (_calculate_bounds curves) Hx Hy Hw Hh)
    as Hs.
  assert (Hdist : point_distance
                    (transform_point (_create_transform self (_calculate_bounds curves)) p)
                    (transform_point (_create_transform self (_calculate_bounds curves)) q)
                  = scale (_create_transform self (_calculate_bounds curves))
                    * point_distance p q).
  { rewrite create_transform_distance, Rabs_right; [reflexivity | lra]. }
  split; [exact Hx|]. split; [exact Hy|]. split; [exact Hs|].
  split; [exact Hdist|].
  intros Heq. rewrite Heq, point_distance_refl in Hdist.
  assert (H0 : point_distance p q = 0).
  { pose proof (point_distance_nonneg p q). nra. }
  revert H0. unfold point_distance; cbv zeta. intros H0.
  apply sqrt_eq_0 in H0; [|apply Rplus_le_le_0_compat; apply pow2_ge_0].
  rewrite <- !Rsqr_pow2 in H0. apply Rplus_sqr_eq_0 in H0.
  destruct p as [px py], q as [qx qy]; cbn [x y] in *.
  f_equal; lra.
Qed.

Lemma calculated_transform_positive_witness :
  0 < scale (_create_transform default_viewer (_calculate_bounds [])).
Proof.
  apply (calculated_transform_positive default_viewer []
           (create_point 0 0) (create_point 0 0)); cbn; lia.
Defined.

(** X22: the bounds of a list of curves reach at least as far as the
    bounds of each curve of the list that has an element: a transform made
    from the shared bounds shows every member whole. *)
Theorem calculate_bounds_contains_member (curves : list Curve) (curve : Curve) :
  In curve curves -> elements curve <> [] ->
  bounds_contain (_calculate_bounds curves) (_calculate_bounds [curve]).
Proof.
  intros Hin Hne.
  assert (Hsub : forall p, In p (all_points [curve]) -> In p (all_points curves)).
  { intros p Hp. apply all_points_spec in Hp.
    destruct Hp as (c & e & [<-|[]] & He & Hcol).
    apply all_points_spec. exists curve, e. auto. }
  assert (Hpts : all_points [curve] <> []).
  { destruct (elements curve) as [|e es] eqn:E; [congruence|].
    unfold all_points; cbn [flat_map]. rewrite E. cbn. discriminate. }
  unfold bounds_contain, _calculate_bounds.
  destruct (all_points [curve]) as [|q ps] eqn:Ein; [congruence|].
  destruct (all_points curves) as [|q' ps'] eqn:Eall;
    [exfalso; exact (Hsub q (or_introl eq_refl))|].
  cbn [min_x max_x min_y max_y].
  destruct (list_min_spec (map x ps) (x q)) as [_ Hminx].
  destruct (list_max_spec (map x ps) (x q)) as [_ Hmaxx].
  destruct (list_min_spec (map y ps) (y q)) as [_ Hminy].
  destruct (list_max_spec (map y ps) (y q)) as [_ Hmaxy].
  destruct (list_min_spec (map x ps') (x q')) as [Hminx' _].
  destruct (list_max_spec (map x ps') (x q')) as [Hmaxx' _].
  destruct (list_min_spec (map y ps') (y q')) as [Hminy' _].
  destruct (list_max_spec (map y ps') (y q')) as [Hmaxy' _].
  change (x q :: map x ps) with (map x (q :: ps)) in *.
  change (y q :: map y ps) with (map y (q :: ps)) in *.
  change (x q' :: map x ps') with (map x (q' :: ps')) in *.
  change (y q' :: map y ps') with (map y (q' :: ps')) in *.
  assert (Hmx : forall v, In v (map x (q :: ps)) -> In v (map x (q' :: ps'))).
  { intros v Hv. apply in_map_iff in Hv. destruct Hv as [p [<- Hp]].
    apply in_map. apply Hsub. exact Hp. }
  assert (Hmy : forall v, In v (map y (q :: ps)) -> In v (map y (q' :: ps'))).
  { intros v Hv. apply in_map_iff in Hv. destruct Hv as [p [<- Hp]].
    apply in_map. apply Hsub. exact Hp. }
  repeat split; auto.
Qed.

Lemma calculate_bounds_contains_member_witness :
  bounds_contain
    (_calculate_bounds [curve_of [unit_line]; curve_of []])
    (_calculate_bounds [curve_of [unit_line]]).
Proof.
  apply (calculate_bounds_contains_member
           [curve_of [unit_line]; curve_of []] (curve_of [unit_line])).
  - left; reflexivity.
  - discriminate.
Defined.

(** ** The shape of a path *)

Lemma element_commands_spec (transform : Transform) (i : nat) (element : Segment) :
  exists draw,
    element_commands transform i element
    = (if (i =? 0)%nat
       then [MoveTo (fst (apply transform (x (seg_start element))
                                          (y (seg_start element))))
                    (snd (apply transform (x (seg_start element))
                                          (y (seg_start element))))]
       else []) ++ [draw]
    /\ command_endpoints draw
       = [apply transform (x (seg_end element)) (y (seg_end element))]
    /\ is_move_command draw = false
    /\ draw <> ClosePath.
Proof.
  destruct element as [s e|arc]; unfold element_commands; cbn [seg_start seg_end].
  - destruct (apply transform (x s) (y s)) as [sx sy].
    destruct (apply transform (x e) (y e)) as [ex ey].
    eexists; split; [reflexivity|]. repeat split; discriminate.
  - destruct (apply transform (x (arc_start arc)) (y (arc_start arc))) as [sx sy].
    destruct (apply transform (x (arc_end arc)) (y (arc_end arc))) as [ex ey].
    eexists; split; [reflexivity|]. repeat split; discriminate.
Qed.

Lemma commands_from_later (transform : Transform) (elems : list Segment) :
  forall i,
    (0 < i)%nat ->
    List.length (commands_from transform i elems) = List.length elems
    /\ filter is_move_command (commands_from transform i elems) = []
    /\ flat_map command_endpoints (commands_from transform i elems)
       = map (fun e => apply transform (x (seg_end e)) (y (seg_end e))) elems.
Proof.
  induction elems as [|e rest IH]; intros i Hi; [repeat split|].
  destruct (IH (S i) ltac:(lia)) as (Hlen & Hmove & Hends).
  destruct (element_commands_spec transform i e) as (draw & Hcmd & Hend & Hm & _).
  cbn [commands_from]. rewrite Hcmd.
  replace (i =? 0)%nat with false by (symmetry; apply Nat.eqb_neq; lia).
  cbn [app List.length filter flat_map map]. rewrite Hm, Hlen, Hmove, Hend, Hends.
  repeat split.
Qed.

(** X23: the path of a curve with elements starts with one move-to, at
    the transformed start of the first element, and has no other; it then
    draws one line-to or arc command per element, ending at the transformed
    end of that element, in order. The path of a curve without elements is
    empty, or the single close-path command when the curve is closed. *)
Theorem path_commands_shape (curve : Curve) (transform : Transform) :
  flat_map command_endpoints (path_commands curve transform)
  = map (fun e => apply transform (x (seg_end e)) (y (seg_end e))) (elements curve)
  /\ (forall first rest,
        elements curve = first :: rest ->
        exists tail,
          path_commands curve transform
          = MoveTo (fst (apply transform (x (seg_start first)) (y (seg_start first))))
                   (snd (apply transform (x (seg_start first)) (y (seg_start first))))
            :: tail
          /\ filter is_move_command tail = []
          /\ List.length tail
             = (List.length (elements curve)
                + if (curve_type curve =? "closed")%string then 1 else 0)%nat)
  /\ (elements curve = [] ->
      forall fmt2 fmt_flag,
        _curve_to_svg_path fmt2 fmt_flag curve transform
        = if (curve_type curve =? "closed")%string then "Z"%string else ""%string).
Proof.
  unfold _curve_to_svg_path, path_commands.
  set (closing := if (curve_type curve =? "closed")%string then [ClosePath] else []).
  assert (Hclosing : flat_map command_endpoints closing = []
                     /\ filter is_move_command closing = []
                     /\ List.length closing
                        = if (curve_type curve =? "closed")%string then 1%nat
                          else 0%nat).
  { unfold closing. destruct (curve_type curve =? "closed")%string; repeat split. }
  destruct Hclosing as (Hce & Hcm & Hcl).
  destruct (elements curve) as [|first rest] eqn:Helems.
  - split; [cbn [commands_from app]; exact Hce|].
    split; [intros f r H; discriminate H|].
    intros _ fmt2 fmt_flag. unfold closing.
    destruct (curve_type curve =? "closed")%string; reflexivity.
  - destruct (commands_from_later transform rest 1 ltac:(lia))
      as (Hlen & Hmove & Hends).
    destruct (element_commands_spec transform 0 first)
      as (draw & Hcmd & Hend & Hm & _).
    cbn [commands_from]. rewrite Hcmd. cbn [Nat.eqb app].
    split; [|split; [|intros H; discriminate H]].
    + cbn [flat_map command_endpoints app map].
      rewrite flat_map_app, Hends, Hce, app_nil_r, Hend. reflexivity.
    + intros f r [= <- <-]. eexists; split; [reflexivity|]. split.
      * cbn [filter]. rewrite Hm, filter_app, Hmove, Hcm. reflexivity.
      * cbn [List.length]. rewrite length_app, Hlen, Hcl. lia.
Qed.

(** ** Curve arrays and their export *)

Lemma fold_left_map_sum {A B : Type} (g : A -> B) (f : B -> R) (l : list A) :
  forall acc,
    fold_left (fun acc b => acc + f b) (map g l) acc
    = fold_left (fun acc a => acc + f (g a)) l acc.
Proof.
  induction l as [|a l IH]; intros acc; [reflexivity|]. cbn [map fold_left].
  apply IH.
Qed.

(** X24: adding a curve to an array puts it last and leaves the curves
    already there and the name untouched; the total length grows by the
    length of the curve and the count of [curve_array_to_dict] by one; the
    curve joins the closed curves exactly when its type is "closed". *)
Theorem add_curve_to_array_spec (curve_array : CurveArray) (curve : Curve) :
  curves (add_curve_to_array curve_array curve) = curves curve_array ++ [curve]
  /\ array_name (add_curve_to_array curve_array curve) = array_name curve_array
  /\ curve_array_length (add_curve_to_array curve_array curve)
     = curve_array_length curve_array + curve_length curve
  /\ curve_count (curve_array_to_dict (add_curve_to_array curve_array curve))
     = S (curve_count (curve_array_to_dict curve_array))
  /\ get_closed_curves (add_curve_to_array curve_array curve)
     = get_closed_curves curve_array
       ++ (if (curve_type curve =? "closed")%string then [curve] else [])
  /\ get_open_curves (add_curve_to_array curve_array curve)
     = get_open_curves curve_array
       ++ (if (curve_type curve =? "open")%string then [curve] else []).
Proof.
  unfold add_curve_to_array, curve_array_length, curve_array_to_dict,
    get_closed_curves, get_open_curves; cbn [curves array_name curve_count].
  split; [reflexivity|]. split; [reflexivity|]. split; [|split; [|split]].
  - rewrite fold_left_app. reflexivity.
  - rewrite length_app. cbn [List.length]. lia.
  - rewrite filter_app. reflexivity.
  - rewrite filter_app. reflexivity.
Qed.

(** X25: in the dictionary of [curve_array_to_dict] the count is the
    number of curve dictionaries, which keep the order, names and types of
    the curves, and the total length is the sum of their lengths; it is
    never negative. *)
Theorem curve_array_to_dict_consistent (curve_array : CurveArray) :
  curve_count (curve_array_to_dict curve_array)
  = List.length (dict_curves (curve_array_to_dict curve_array))
  /\ map dict_name (dict_curves (curve_array_to_dict curve_array))
     = map name (curves curve_array)
  /\ map dict_curve_type (dict_curves (curve_array_to_dict curve_array))
     = map curve_type (curves curve_array)
  /\ dict_array_total_length (curve_array_to_dict curve_array)
     = fold_left (fun acc d => acc + dict_total_length d)
                 (dict_curves (curve_array_to_dict curve_array)) 0
  /\ 0 <= dict_array_total_length (curve_array_to_dict curve_array).
Proof.
  unfold curve_array_to_dict;
    cbn [curve_count dict_curves dict_array_total_length].
  split; [rewrite length_map; reflexivity|].
  split; [rewrite map_map; reflexivity|].
  split; [rewrite map_map; reflexivity|]. split.
  - rewrite fold_left_map_sum. reflexivity.
  - unfold curve_array_length. apply fold_length_nonneg.
    intros c _. unfold curve_length. apply fold_length_nonneg.
    intros e _. apply element_length_nonneg.
Qed.

Lemma closed_open_count (l : list Curve) :
  (List.length (filter (fun c => (curve_type c =? "closed")%string) l)
   + List.length (filter (fun c => (curve_type c =? "open")%string) l)
   <= List.length l)%nat.
Proof.
  induction l as [|c l IH]; [cbn; lia|]. cbn [filter List.length].
  destruct (String.eqb_spec (curve_type c) "closed") as [Hcl|Hcl];
    destruct (String.eqb_spec (curve_type c) "open") as [Hop|Hop];
    try congruence; cbn [List.length]; lia.
Qed.

(** X26: no curve is both among the closed and among the open curves of
    an array, and the two lists together are all the curves exactly when
    every curve has the type "open" or "closed": a curve of any other type
    is in neither. *)
Theorem closed_and_open_curves (curve_array : CurveArray) :
  (forall curve,
      In curve (get_closed_curves curve_array)
      <-> In curve (curves curve_array) /\ curve_type curve = "closed"%string)
  /\ (forall curve,
        In curve (get_open_curves curve_array)
        <-> In curve (curves curve_array) /\ curve_type curve = "open"%string)
  /\ (forall curve,
        ~ (In curve (get_closed_curves curve_array)
           /\ In curve (get_open_curves curve_array)))
  /\ ((List.length (get_closed_curves curve_array)
       + List.length (get_open_curves curve_array))%nat
      = List.length (curves curve_array)
      <-> Forall (fun curve => curve_type curve = "closed"%string
                               \/ curve_type curve = "open"%string)
                 (curves curve_array)).
Proof.
  unfold get_closed_curves, get_open_curves.
  assert (Hc : forall curve,
             In curve (filter (fun c => (curve_type c =? "closed")%string)
                              (curves curve_array))
             <-> In curve (curves curve_array)
                 /\ curve_type curve = "closed"%string).
  { intros curve. rewrite filter_In, String.eqb_eq. reflexivity. }
  assert (Ho : forall curve,
             In curve (filter (fun c => (curve_type c =? "open")%string)
                              (curves curve_array))
             <-> In curve (curves curve_array)
                 /\ curve_type curve = "open"%string).
  { intros curve. rewrite filter_In, String.eqb_eq. reflexivity. }
  split; [exact Hc|]. split; [exact Ho|]. split.
  - intros curve [H1 H2]. apply Hc in H1. apply Ho in H2.
    destruct H1 as [_ H1], H2 as [_ H2]. congruence.
  - clear Hc Ho. induction (curves curve_array) as [|c l IH].
    + split; [constructor | reflexivity].
    + cbn [filter List.length].
      pose proof (closed_open_count l).
      destruct (String.eqb_spec (curve_type c) "closed") as [Hcl|Hcl];
        destruct (String.eqb_spec (curve_type c) "open") as [Hop|Hop];
        try congruence; cbn [List.length].
      * split.
        -- intros H1. constructor; [left; exact Hcl | apply IH; lia].
        -- intros H1. inversion H1 as [|? ? Hhead Htail]; subst.
           apply IH in Htail. lia.
      * split.
        -- intros H1. constructor; [right; exact Hop | apply IH; lia].
        -- intros H1. inversion H1 as [|? ? Hhead Htail]; subst.
           apply IH in Htail. lia.
      * split; [lia|]. intros H1. inversion H1 as [|? ? Hhead Htail]; subst. tauto.
Qed.

Section ExportProperties.

Variable lower : string -> string.
Variable fmt2 : R -> string.
Variable fmt_flag : Z -> string.

Lemma curve_to_web_dict_spec (curve : Curve) (bounds : Bounds)
  (canvas_width canvas_height : Z) :
  (name curve = None
   /\ curve_to_web_dict lower fmt2 fmt_flag curve (Some bounds)
        canvas_width canvas_height = AttributeError)
  \/ exists web_curve,
       curve_to_web_dict lower fmt2 fmt_flag curve (Some bounds)
         canvas_width canvas_height = Exported web_curve
       /\ exports_curve lower fmt2 fmt_flag bounds canvas_width canvas_height
            curve web_curve.
Proof.
  unfold curve_to_web_dict. destruct (name curve) as [nm|] eqn:Hname.
  - right. eexists; split; [reflexivity|].
    unfold exports_curve; cbn. rewrite Hname. repeat split.
  - left; split; reflexivity.
Qed.

Lemma web_curves_of_spec (bounds : Bounds) (canvas_width canvas_height : Z)
  (curves : list Curve) :
  forall web_curves,
    (Exists (fun curve => name curve = None) curves
     /\ web_curves_of lower fmt2 fmt_flag curves bounds canvas_width canvas_height
          web_curves = AttributeError)
    \/ exists added,
         web_curves_of lower fmt2 fmt_flag curves bounds canvas_width canvas_height
           web_curves = Exported (web_curves ++ added)
         /\ Forall2 (exports_curve lower fmt2 fmt_flag bounds
                       canvas_width canvas_height) curves added.
Proof.
  induction curves as [|curve rest IH]; intros web_curves.
  - right. exists []. rewrite app_nil_r. split; [reflexivity | constructor].
  - cbn [web_curves_of].
    destruct (curve_to_web_dict_spec curve bounds canvas_width canvas_height)
      as [[Hnone ->]|(web_curve & -> & Hexp)].
    + left. split; [left; exact Hnone | reflexivity].
    + destruct (IH (web_curves ++ [web_curve])) as [[Hex ->]|(added & -> & Hall)].
      * left. split; [right; exact Hex | reflexivity].
      * right. exists (web_curve :: added). rewrite <- app_assoc.
        split; [reflexivity | constructor; assumption].
Qed.

End ExportProperties.

Lemma exported_curves_named (lower : string -> string) (fmt2 : R -> string)
  (fmt_flag : Z -> string) (bounds : Bounds) (canvas_width canvas_height : Z)
  (curves : list Curve) (web_curves : list WebCurve) :
  Forall2 (exports_curve lower fmt2 fmt_flag bounds canvas_width canvas_height)
          curves web_curves ->
  forall curve, In curve curves -> name curve <> None.
Proof.
  induction 1 as [|a b l l' Hab _ IH]; intros curve Hin; [destruct Hin|].
  destruct Hin as [<-|Hin]; [|exact (IH curve Hin)].
  destruct Hab as [Hname _]. congruence.
Qed.

(** X27: the export of a curve array fails exactly when one of its curves
    has no name, [None.replace] raising the attribute error; an array
    without curves, and one whose curves are all named, are exported. *)
Theorem curve_array_to_web_dict_fails_iff (lower : string -> string)
  (fmt2 : R -> string) (fmt_flag : Z -> string) (curve_array : CurveArray)
  (canvas_width canvas_height : Z) :
  curve_array_to_web_dict lower fmt2 fmt_flag curve_array canvas_width canvas_height
  = AttributeError
  <-> exists curve, In curve (curves curve_array) /\ name curve = None.
Proof.
  unfold curve_array_to_web_dict.
  destruct (curves curve_array) as [|c rest] eqn:Hcurves.
  - split; [discriminate|]. intros (curve & Hin & _).
    rewrite ?Hcurves in Hin. destruct Hin.
  - rewrite <- Hcurves.
    destruct (web_curves_of_spec lower fmt2 fmt_flag
                (_calculate_bounds (curves curve_array)) canvas_width canvas_height
                (curves curve_array) []) as [[Hex ->]|(added & -> & Hall)].
    + split; [intros _ | reflexivity]. apply Exists_exists in Hex. exact Hex.
    + split; [discriminate|]. intros (curve & Hin & Hnone). exfalso.
      exact (exported_curves_named _ _ _ _ _ _ _ _ Hall curve Hin Hnone).
Qed.

(** X28: an exported curve array keeps the name of the array and its
    curves in order, each with its name, its identifier (the name with
    spaces replaced and lowered), type, material, elements and length, and
    a path drawn with the bounds of the whole array; the bounds are those
    [_calculate_bounds] gives and the total length is that of the array and
    the sum of the lengths exported, also for an array without curves, the
    only one exported without a canvas size. *)
Theorem curve_array_to_web_dict_content (lower : string -> string)
  (fmt2 : R -> string) (fmt_flag : Z -> string) (curve_array : CurveArray)
  (canvas_width canvas_height : Z) (web_array : WebCurveArray) :
  curve_array_to_web_dict lower fmt2 fmt_flag curve_array canvas_width canvas_height
  = Exported web_array ->
  web_array_name web_array = array_name curve_array
  /\ web_bounds web_array = _calculate_bounds (curves curve_array)
  /\ Forall2 (exports_curve lower fmt2 fmt_flag
                (_calculate_bounds (curves curve_array)) canvas_width canvas_height)
             (curves curve_array) (web_curves web_array)
  /\ web_total_length web_array = curve_array_length curve_array
  /\ web_total_length web_array
     = fold_left (fun acc w => acc + geometry_length (geometry w))
                 (web_curves web_array) 0
  /\ (canvas web_array = None <-> curves curve_array = [])
  /\ (curves curve_array <> [] ->
      canvas web_array = Some (canvas_width, canvas_height)).
Proof.
  unfold curve_array_to_web_dict.
  destruct (curves curve_array) as [|c rest] eqn:Hcurves.
  - intros [= <-]. cbn. repeat split; try constructor; try reflexivity.
    + unfold curve_array_length. rewrite Hcurves. reflexivity.
    + intros H; congruence.
  - rewrite <- Hcurves.
    destruct (web_curves_of_spec lower fmt2 fmt_flag
                (_calculate_bounds (curves curve_array)) canvas_width canvas_height
                (curves curve_array) []) as [[Hex ->]|(added & -> & Hall)];
      [discriminate|].
    intros [= <-]. cbn [web_array_name web_bounds web_curves web_total_length canvas app].
    split; [reflexivity|]. split; [reflexivity|]. split; [exact Hall|].
    split; [reflexivity|]. split; [|split].
    + unfold curve_array_length. generalize 0.
      induction Hall as [|a b l l' Hab _ IH]; intros acc; [reflexivity|].
      cbn [fold_left]. destruct Hab as (_ & _ & _ & _ & _ & -> & _). apply IH.
    + split; [discriminate | rewrite Hcurves; discriminate].
    + intros _. reflexivity.
Qed.

Lemma curve_array_to_web_dict_content_witness :
  exists web_array,
    curve_array_to_web_dict (fun s => s) (fun _ => ""%string) (fun _ => ""%string)
      (create_curve_array [mkCurve [unit_line] "open" (Some "Unit Line"%string) None]
         None) 800 600
    = Exported web_array
    /\ option_map web_name (hd_error (web_curves web_array))
       = Some "Unit Line"%string
    /\ canvas web_array = Some (800, 600)%Z.
Proof.
  eexists. split; [reflexivity|].
  destruct (curve_array_to_web_dict_content
              (fun s => s) (fun _ => ""%string) (fun _ => ""%string)
              (create_curve_array
                 [mkCurve [unit_line] "open" (Some "Unit Line"%string) None] None)
              800 600 _ eq_refl) as (_ & _ & _ & _ & _ & _ & Hcanvas).
  split; [reflexivity|]. apply Hcanvas. discriminate.
Defined.

(** ** The array of trapezoids *)

Lemma create_trapezoid_at (bottom_width top_width height : R) (origin : Point)
  (nm : option string) :
  create_trapezoid bottom_width top_width height (Some origin) nm
  = Ok (trapezoid_curve bottom_width top_width height origin nm).
Proof. unfold create_trapezoid; cbv zeta. apply create_curve_quadrilateral. Qed.

Lemma trapezoid_profiles_placed (profiles : list (R * R * R)) (spacing : R) :
  forall i curves current_x,
    trapezoid_profiles profiles spacing i curves current_x
    = Ok (curves ++ placed profiles spacing i current_x).
Proof.
  induction profiles as [|[[b t] h] rest IH]; intros i curves current_x.
  - cbn. rewrite app_nil_r. reflexivity.
  - cbn [trapezoid_profiles placed]. rewrite create_trapezoid_at; cbn [bind].
    rewrite IH, <- app_assoc. reflexivity.
Qed.

Lemma placed_length (profiles : list (R * R * R)) (spacing : R) :
  forall i current_x,
    List.length (placed profiles spacing i current_x) = List.length profiles.
Proof.
  induction profiles as [|[[b t] h] rest IH]; intros i current_x; [reflexivity|].
  cbn [placed List.length]. rewrite IH. reflexivity.
Qed.

Lemma placed_nth (profiles : list (R * R * R)) (spacing : R) :
  forall k i current_x b t h,
    nth_error profiles k = Some (b, t, h) ->
    nth_error (placed profiles spacing i current_x) k
    = Some (trapezoid_curve b t h
              (create_point
                 (fold_left (fun current_x profile =>
                               current_x + (fst (fst profile) + spacing))
                            (firstn k profiles) current_x) 0)
              (Some ("Trapezoid_" ++ decimal (i + k + 1))%string)).
Proof.
  induction profiles as [|[[b0 t0] h0] rest IH]; intros [|k] i current_x b t h Hk;
    try discriminate Hk.
  - cbn in Hk. injection Hk as -> -> ->. cbn [placed nth_error firstn fold_left].
    rewrite Nat.add_0_r. reflexivity.
  - cbn [placed nth_error firstn fold_left fst]. rewrite (IH k (S i) _ b t h Hk).
    replace (S i + k + 1)%nat with (i + S k + 1)%nat by lia. reflexivity.
Qed.

Lemma placed_names (profiles : list (R * R * R)) (spacing : R) :
  forall i current_x,
    map name (placed profiles spacing i current_x)
    = map (fun j => Some ("Trapezoid_" ++ decimal (j + 1))%string)
          (seq i (List.length profiles)).
Proof.
  induction profiles as [|[[b t] h] rest IH]; intros i current_x; [reflexivity|].
  cbn [placed map List.length seq name trapezoid_curve]. rewrite IH. reflexivity.
Qed.

Lemma decimal_injective (n m : nat) : decimal n = decimal m -> n = m.
Proof.
  unfold decimal. intros H.
  apply (f_equal NilEmpty.uint_of_string) in H. rewrite !NilEmpty.usu in H.
  injection H as H. apply (f_equal Nat.of_uint) in H.
  rewrite !DecimalNat.Unsigned.of_to in H. exact H.
Qed.

Lemma NoDup_map_injective {A B : Type} (f : A -> B) (l : list A) :
  (forall a b, f a = f b -> a = b) -> NoDup l -> NoDup (map f l).
Proof.
  intros Hinj. induction 1 as [|a l Hnotin _ IH]; cbn [map]; constructor;
    [|exact IH].
  intros Hin. apply in_map_iff in Hin. destruct Hin as [b [Hb Hin]].
  apply Hinj in Hb. subst b. exact (Hnotin Hin).
Qed.

(** X29: [create_trapezoidal_profile_array] never raises: it returns an
    array named "Trapezoidal Profile Array" with one closed trapezoid per
    profile, in order, the k-th one standing on the base line at the sum of
    the bottom widths and spacings before it and named "Trapezoid_" followed
    by k + 1 in decimal; no two of its curves have the same name. *)
Theorem create_trapezoidal_profile_array_spec (profiles : list (R * R * R))
  (spacing : R) :
  exists curve_array,
    create_trapezoidal_profile_array profiles spacing = Ok curve_array
    /\ array_name curve_array = Some "Trapezoidal Profile Array"%string
    /\ List.length (curves curve_array) = List.length profiles
    /\ (forall k bottom_width top_width height,
          nth_error profiles k = Some (bottom_width, top_width, height) ->
          exists curve,
            nth_error (curves curve_array) k = Some curve
            /\ create_trapezoid bottom_width top_width height
                 (Some (create_point (offset_before profiles spacing k) 0))
                 (Some ("Trapezoid_" ++ decimal (k + 1))%string)
               = Ok curve)
    /\ NoDup (map name (curves curve_array)).
Proof.
  unfold create_trapezoidal_profile_array.
  rewrite trapezoid_profiles_placed; cbn [bind app].
  eexists; split; [reflexivity|]. cbn [array_name curves].
  split; [reflexivity|]. split; [apply placed_length|]. split.
  - intros k b t h Hk. eexists; split.
    + rewrite (placed_nth profiles spacing k 0 0 b t h Hk). reflexivity.
    + apply create_trapezoid_at.
  - rewrite placed_names. apply NoDup_map_injective; [|apply seq_NoDup].
    intros j j' H. injection H as H. apply decimal_injective in H. lia.
Qed.

(** ** Materials *)

Lemma materials_keys (key : string) (material : Material) :
  dict_get MATERIALS key = Some material ->
  material_name material = key /\ In (key, material) MATERIALS.
Proof.
  unfold MATERIALS; cbn [dict_get].
  repeat match goal with
         | |- context [String.eqb ?k key] =>
             destruct (String.eqb_spec k key) as [<-|_];
             [intros [= <-]; split; [reflexivity | cbn; auto 12]|]
         end.
  discriminate.
Qed.

(** X30: [get_material] never fails: for a name that, lowered, is a key of
    the registry it returns the material registered under that key, whose
    own name is that key; for every other name it returns the concrete.
    The materials listed for a category are the registered materials of
    that category. *)
Theorem get_material_spec (lower : string -> string) (nm : string) :
  (forall material,
      dict_get MATERIALS (lower nm) = Some material ->
      get_material lower nm = material
      /\ material_name (get_material lower nm) = lower nm)
  /\ (dict_get MATERIALS (lower nm) = None -> get_material lower nm = CONCRETE)
  /\ In (get_material lower nm) (map snd MATERIALS)
  /\ (forall cat item,
        In item (get_materials_by_category cat)
        <-> In item MATERIALS /\ category (snd item) = cat).
Proof.
  unfold get_material.
  destruct (dict_get MATERIALS (lower nm)) as [m|] eqn:Hget.
  - destruct (materials_keys _ _ Hget) as [Hname Hin].
    split; [intros material [= <-]; split; [reflexivity | exact Hname]|].
    split; [discriminate|]. split.
    + apply (in_map snd) in Hin. exact Hin.
    + intros cat item. unfold get_materials_by_category.
      rewrite filter_In, String.eqb_eq. reflexivity.
  - split; [intros material H; discriminate H|]. split; [reflexivity|]. split.
    + left; reflexivity.
    + intros cat item. unfold get_materials_by_category.
      rewrite filter_In, String.eqb_eq. reflexivity.
Qed.
